(** * Deribit REST mixin: trade pagination and order-book snapshot

    A shallow embedding of [cryptofeed/exchanges/mixins/deribit_rest.py]
    ([Deribit._get_trades], [Deribit._trade_normalization], [Deribit._book])
    and the properties of its cursor, retry and snapshot logic.

    Conventions of the embedding:
    - the HTTP server is an input: a finite script of responses, one consumed
      by each call of the decorated [helper]; a run that asks for a response
      the script does not hold ends [Pending] on the URL it is requesting;
    - [sleep], [log.warning], [requests.get], [yield] and [_handle_error] are
      recorded, in program order, in a trace of events;
    - Python exceptions are values of [exn]; a raising statement ends the run
      with [Raised];
    - JSON integers are [Z], JSON numbers (prices, amounts) are exact
      rationals [Qc], JSON strings are [string];
    - the floats of the window resolution are the binary64 floats of the
      kernel. *)

From Stdlib Require Import Ascii QArith Qcanon.
From Stdlib Require Floats.
From stdpp Require Import gmap strings list pretty numbers sorting.

Local Open Scope Z_scope.

(** ** Python builtins used by the module *)

Module Py.

Inductive exn : Type :=
| KeyError (key : string)
| ValueError
| UnboundLocalError (name : string)
| HTTPError (status : Z).

(** Truthiness of an optional integer: [None] and [0] are falsy. *)
Definition truthy (x : option Z) : bool :=
  match x with
  | Some n => negb (n =? 0)
  | None => false
  end.

(** What [int] makes of a string that holds characters outside ASCII is
    settled by the Unicode database (the decimal digits and the blanks of
    every script). That table is taken as given: nothing is assumed of it. *)
Class Unicode : Type := { int_non_ascii : string -> option Z }.

Definition is_ascii (s : list ascii) : bool :=
  forallb (fun c => (nat_of_ascii c <? 128)%nat) s.

(** The blanks [int] strips from an ASCII string: tab, line feed, vertical
    tab, form feed, carriage return and space. *)
Definition is_space (c : ascii) : bool :=
  let n := nat_of_ascii c in
  ((9 <=? n) && (n <=? 13) || (n =? 32))%nat.

Definition digit_val (c : ascii) : option Z :=
  let n := nat_of_ascii c in
  if ((48 <=? n) && (n <=? 57))%nat then Some (Z.of_nat n - 48) else None.

Fixpoint lstrip (s : list ascii) : list ascii :=
  match s with
  | c :: s' => if is_space c then lstrip s' else s
  | [] => []
  end.

Definition strip (s : list ascii) : list ascii :=
  rev (lstrip (rev (lstrip s))).

(** Decimal digits with single underscores between digits;
    [seen] tells whether the previous character was a digit. *)
Fixpoint digits (acc : Z) (seen : bool) (s : list ascii) : option Z :=
  match s with
  | [] => if seen then Some acc else None
  | c :: s' =>
      if Ascii.eqb c "_"%char
      then (if seen then digits acc false s' else None)
      else match digit_val c with
           | Some d => digits (10 * acc + d) true s'
           | None => None
           end
  end.

(** [sys.get_int_max_str_digits()], as the interpreter starts. *)
Definition int_max_str_digits : nat := 4300.

Definition digit_count (s : list ascii) : nat :=
  length (List.filter
            (fun c => match digit_val c with Some _ => true | None => false end)
            s).

(** A literal of more digits than the limit is refused. *)
Definition literal (ds : list ascii) : option Z :=
  if (digit_count ds <=? int_max_str_digits)%nat then digits 0 false ds
  else None.

(** [int(s)] in base ten for an ASCII string: surrounding blanks, an
    optional sign, then the literal. [None] stands for [ValueError]. *)
Definition int_ascii (s : list ascii) : option Z :=
  match strip s with
  | c :: ds =>
      if Ascii.eqb c "-"%char then Z.opp <$> literal ds
      else if Ascii.eqb c "+"%char then literal ds
      else literal (c :: ds)
  | [] => None
  end.

(** [int(s)] *)
Definition int `{Unicode} (s : string) : option Z :=
  let chars := String.list_ascii_of_string s in
  if is_ascii chars then int_ascii chars else int_non_ascii s.

End Py.

Export Py(exn, KeyError, ValueError, UnboundLocalError, HTTPError).

(** ** Python floats *)

Module PyFloat.
Import Floats.

(** [float(n)] for an integer with [|n| < 2^63]. *)
Definition of_int (n : Z) : float :=
  if n <? 0 then PrimFloat.opp (PrimFloat.of_uint63 (Uint63.of_Z (- n)))
  else PrimFloat.of_uint63 (Uint63.of_Z n).

(** The number a finite float stands for: mantissa and binary exponent. *)
Definition exact (x : float) : option (Z * Z) :=
  match Prim2SF x with
  | S754_zero _ => Some (0, 0)
  | S754_finite s m e => Some (if s then Z.neg m else Z.pos m, e)
  | _ => None
  end.

(** [n / d] rounded to the nearest integer, ties to even ([d > 0]). *)
Definition round_half_even (n d : Z) : Z :=
  let q := n / d in
  let r := n mod d in
  match 2 * r ?= d with
  | Lt => q
  | Gt => q + 1
  | Eq => if Z.even q then q else q + 1
  end.

(** The float nearest to [n / d], ties to even ([d > 0], a quotient of
    normal size). *)
Definition nearest (n d : Z) : float :=
  if n =? 0 then of_int 0 else
  let a := Z.abs n in
  let l := Z.log2 a - Z.log2 d in
  let scaled (e : Z) :=
    if 0 <=? e then round_half_even a (d * 2 ^ e)
    else round_half_even (a * 2 ^ (- e)) d in
  let e :=
    if (if 0 <=? l then d * 2 ^ l <=? a else d <=? a * 2 ^ (- l))
    then l - 52 else l - 53 in
  let x := Z.ldexp (of_int (scaled e)) e in
  if n <? 0 then PrimFloat.opp x else x.

(** [round(x, 6)]: the float nearest to the decimal of six places nearest
    to [x], ties to even both times. *)
Definition round6 (x : float) : float :=
  match exact x with
  | Some (m, e) =>
      if 0 <=? e then x
      else nearest (round_half_even (m * 10 ^ 6) (2 ^ (- e))) (10 ^ 6)
  | None => x
  end.

(** [int(x)]: truncation toward zero; [None] for an infinity or a NaN,
    on which [int] raises. *)
Definition int (x : float) : option Z :=
  match exact x with
  | Some (m, e) => Some (if 0 <=? e then m * 2 ^ e else Z.quot m (2 ^ (- e)))
  | None => None
  end.

End PyFloat.

(** ** pandas.Timestamp

    A timestamp is its [value], the nanoseconds since the epoch, an integer
    of 64 bits other than the least one (which is NaT). *)

Module Pd.

(** [x - pd.Timedelta(nanoseconds=1)] *)
Definition sub_nanosecond (value : Z) : Z := value - 1.

(** [x.timestamp()], that is [round(x.value / 1e9, 6)] *)
Definition timestamp (value : Z) : PrimFloat.float :=
  PyFloat.round6
    (PrimFloat.div (PyFloat.of_int value) (PyFloat.of_int 1000000000)).

(** [int(x.timestamp() * 1000)]; the product of these finite floats is
    finite, so [int] does not raise and the default is not taken. *)
Definition epoch_ms (value : Z) : Z :=
  default 0 (PyFloat.int (PrimFloat.mul (timestamp value) (PyFloat.of_int 1000))).

End Pd.

(** ** Wire shapes *)

(** One element of [result.trades]. *)
Module Native.
Record t : Type := mk {
  timestamp : Z;
  instrument_name : string;
  trade_id : string;
  direction : string;
  amount : Qc;
  price : Qc
}.
End Native.

Inductive side : Type := BUY | SELL.

(** The canonical trade built by [_trade_normalization]. *)
Module Trade.
Record t (instant : Type) : Type := mk {
  timestamp : instant;
  symbol : string;
  id : Z;
  feed : string;
  side : side;
  amount : Qc;
  price : Qc
}.
Arguments mk {instant}.
Arguments timestamp {instant}.
Arguments symbol {instant}.
Arguments id {instant}.
Arguments feed {instant}.
Arguments side {instant}.
Arguments amount {instant}.
Arguments price {instant}.
End Trade.

(** [result] of a [get_order_book] body: lists of [[price, amount]] pairs. *)
Record book_result : Type := {
  bids : list (Qc * Qc);
  asks : list (Qc * Qc)
}.

(** What the code reads of a [requests.Response]; [json] is the part of the
    decoded body the caller indexes. *)
Record response (B : Type) : Type := {
  status_code : Z;
  retry_after : option string;     (* headers.get('Retry-After') *)
  url : string;
  text : string;
  json : B
}.
Arguments status_code {B}.
Arguments retry_after {B}.
Arguments url {B}.
Arguments text {B}.
Arguments json {B}.

(** ** sortedcontainers.SortedDict, keys and values numbers *)

Module SortedDict.

(** The items in iteration order. *)
Definition t : Type := list (Qc * Qc).

Definition empty : t := [].

(** [d[k] = v] *)
Fixpoint setitem (k v : Qc) (d : t) : t :=
  match d with
  | [] => [(k, v)]
  | (k', v') :: d' =>
      match (k ?= k')%Qc with
      | Lt => (k, v) :: d
      | Eq => (k', v) :: d'
      | Gt => (k', v') :: setitem k v d'
      end
  end.

(** [d.get(k)] *)
Fixpoint get (k : Qc) (d : t) : option Qc :=
  match d with
  | [] => None
  | (k', v') :: d' =>
      match (k ?= k')%Qc with
      | Eq => Some v'
      | _ => get k d'
      end
  end.

Definition keys (d : t) : list Qc := d.*1.

End SortedDict.

(** ** Module constants *)

(** A length of sleep that every platform accepts: the seconds that fit
    in 32 bits of milliseconds, about 49 days. *)
Definition SLEEP_MAX : Q := 4294967 # 1.

Definition REQUEST_LIMIT : Z := 1000.
Definition RATE_LIMIT_SLEEP : Q := 2 # 10.
Definition api : string := "https://www.deribit.com/api/v2/public/".

(** ** Collaborators outside the module *)

(** The base class [RestAPI] and the exchange object [info]: what the mixin
    calls on [self] and does not define. *)
Class RestAPI : Type := {
  instant : Type;
  datelike : Type;
  Timestamp : Type;
  DERIBIT : string;                                     (* [id = DERIBIT] *)
  timestamp_normalize : Z -> instant;
  std_symbol_to_exchange_symbol : string -> string;
  _timestamp : datelike -> Timestamp
}.

(** The two pandas operations of the window resolution:
    [x - pd.Timedelta(nanoseconds=1)] and [int(x.timestamp() * 1000)]. *)
Class Pandas `{RestAPI} : Type := {
  sub_nanosecond : Timestamp -> Timestamp;
  epoch_ms : Timestamp -> Z
}.

(** ** Effects *)

Inductive warning : Type :=
| ServerError (feed url text : string)
    (* "%s: 500 for URL %s - %s" *)
| NoData (feed : string) (start end_ : option Z)
    (* "%s: No data for range %d - %d" *)
| Saturated (feed : string) (start : option Z).
    (* "%s: number of trades exceeds exchange time window, some data will
       not be retrieved for time %d" *)

Inductive event `{RestAPI} : Type :=
| Get (url : string)                      (* requests.get(url) *)
| Sleep (seconds : Q)                     (* time.sleep(seconds) *)
| Warning (w : warning)                   (* self.log.warning(...) *)
| HandleError (status : Z)                (* self._handle_error(r) *)
| Yield (page : list (Trade.t instant)).  (* yield data *)

(** How a run ends: the call returns (a generator is exhausted), an
    exception escapes, or the script has no response for the request. *)
Inductive outcome (A : Type) : Type :=
| Returned (a : A)
| Raised (e : exn)
| Pending (url : string).
Arguments Returned {A}.
Arguments Raised {A}.
Arguments Pending {A}.

(** What the body of a [while True] loop does next. *)
Inductive control : Type := Continue | Break.

(** Statements over the locals [L] of a call and the trace of its effects;
    an exception keeps both as they were when it was raised. *)
Definition M `{RestAPI} (L A : Type) : Type :=
  L * list event -> (exn + A) * (L * list event).

Section Monad.
Context {py : Py.Unicode} `{RestAPI} {L : Type}.

Definition ret {A} (a : A) : M L A := fun st => (inr a, st).

Definition bind {A B} (m : M L A) (k : A -> M L B) : M L B :=
  fun st =>
    match m st with
    | (inr a, st') => k a st'
    | (inl e, st') => (inl e, st')
    end.

Definition raise {A} (e : exn) : M L A := fun st => (inl e, st).

Definition emit (ev : event) : M L unit :=
  fun st => (inr tt, (st.1, st.2 ++ [ev])).

Definition get : M L L := fun st => (inr st.1, st).

Definition modify (f : L -> L) : M L unit :=
  fun st => (inr tt, (f st.1, st.2)).

(** [for x in xs: body x] *)
Fixpoint for_each {A} (xs : list A) (body : A -> M L unit) : M L unit :=
  match xs with
  | [] => ret tt
  | x :: xs' => bind (body x) (fun _ => for_each xs' body)
  end.

(** [[f(x) for x in xs]]: the first exception of [f] escapes. *)
Fixpoint traverse {A B} (f : A -> exn + B) (xs : list A) : exn + list B :=
  match xs with
  | [] => inr []
  | x :: xs' =>
      match f x with
      | inl e => inl e
      | inr y =>
          match traverse f xs' with
          | inl e => inl e
          | inr ys => inr (y :: ys)
          end
      end
  end.

Definition comprehension {A B} (f : A -> exn + B) (xs : list A)
  : M L (list B) :=
  match traverse f xs with
  | inl e => raise e
  | inr ys => ret ys
  end.

(** [time.sleep(seconds)]: a negative length is a [ValueError]. A length
    beyond what the clock of the platform holds is refused too, with an
    error and at a length that depend on the platform; such lengths are
    not modelled, and what is stated of a sleep of variable length is
    stated up to [SLEEP_MAX]. *)
Definition sleep (seconds : Q) : M L unit :=
  if Qle_bool 0 seconds then emit (Sleep seconds) else raise ValueError.

(** [int(r.headers['Retry-After'])]; the headers are a dictionary that
    ignores case and names the lowered key when it misses it. *)
Definition retry_after_seconds {B} (r : response B) : M L Z :=
  match retry_after r with
  | None => raise (KeyError "retry-after")
  | Some h =>
      match Py.int h with
      | Some n => ret n
      | None => raise ValueError
      end
  end.

(** Modelled from the spec: [RestAPI._handle_error], which the module
    calls but does not define. The response is handed to the
    error-reporting collaborator and the call fails; nothing is retried. *)
Definition _handle_error {B} (r : response B) : M L unit :=
  bind (emit (HandleError (status_code r)))
       (fun _ => raise (HTTPError (status_code r))).

End Monad.

Notation "x <- m ;; k" := (bind m (fun x => k))
  (at level 100, m at next level, right associativity).
Notation "m ;;; k" := (bind m (fun _ => k))
  (at level 100, right associativity).

(** ** class Deribit(RestAPI) *)

(** The locals of [_get_trades] that the loop reads and writes. *)
Record cursor : Type := { start : option Z; end_ : option Z }.

(** [{BID: sd(), ASK: sd()}] *)
Record book : Type := { BID : SortedDict.t; ASK : SortedDict.t }.

Inductive book_side : Type := Bid | Ask.

(** [b[side] = f(b[side])] *)
Definition on_side (side : book_side) (f : SortedDict.t -> SortedDict.t)
    (b : book) : book :=
  match side with
  | Bid => {| BID := f (BID b); ASK := ASK b |}
  | Ask => {| BID := BID b; ASK := f (ASK b) |}
  end.

(** The locals of [_book]; [data] is unbound until it is assigned. *)
Record book_locals : Type := {
  ret_ : gmap string book;
  data : option book_result
}.

Section Deribit.
Context {py : Py.Unicode} `{Pandas}.

(** *** [_trade_normalization] *)

Definition _trade_normalization (trade : Native.t) : exn + Trade.t instant :=
  match Py.int (Native.trade_id trade) with
  | None => inl ValueError
  | Some n =>
      inr {| Trade.timestamp := timestamp_normalize (Native.timestamp trade);
             Trade.symbol := Native.instrument_name trade;
             Trade.id := n;
             Trade.feed := DERIBIT;
             Trade.side :=
               if String.eqb (Native.direction trade) "buy" then BUY else SELL;
             Trade.amount := Native.amount trade;
             Trade.price := Native.price trade |}
  end.

(** *** [_get_trades] *)

(** Lines 36-43: the caller's dates become the two integer bounds. *)
Definition window (utcnow : datelike) (start_date end_date : option datelike)
  : cursor :=
  match start_date with
  | Some start_date =>
      let end_date := default utcnow end_date in
      let start := _timestamp start_date in
      let end_ := sub_nanosecond (_timestamp end_date) in
      {| start := Some (epoch_ms start); end_ := Some (epoch_ms end_) |}
  | None => {| start := None; end_ := None |}
  end.

(** The URL that [helper(start, end)] requests. *)
Definition helper (instrument : string) (c : cursor) : string :=
  if Py.truthy (start c) && Py.truthy (end_ c) then
    api +:+ "get_last_trades_by_instrument_and_time?&start_timestamp="
        +:+ pretty (default 0 (start c))
        +:+ "&end_timestamp=" +:+ pretty (default 0 (end_ c))
        +:+ "&instrument_name=" +:+ instrument
        +:+ "&include_old=true&count=" +:+ pretty REQUEST_LIMIT
  else
    api +:+ "get_last_trades_by_instrument?instrument_name=" +:+ instrument
        +:+ "&include_old=true&count=" +:+ pretty REQUEST_LIMIT.

(** Lines 67-77: the cursor after a page of raw trades. *)
Definition advance (trades : list Native.t) : M cursor unit :=
  c <- get ;;
  match list.last trades with
  | None => emit (Warning (NoData DERIBIT (start c) (end_ c)))
  | Some t =>
      if bool_decide (Some (Native.timestamp t) = start c) then
        emit (Warning (Saturated DERIBIT (start c))) ;;;
        modify (fun c => {| start := Z.succ <$> start c; end_ := end_ c |})
      else
        modify (fun c => {| start := Some (Native.timestamp t);
                            end_ := end_ c |})
  end.

(** Lines 55-84: what one turn of the loop does with the response [r]. *)
Definition _get_trades_body (retry_wait : Q) (r : response (list Native.t))
  : M cursor control :=
  if bool_decide (status_code r = 429) then
    n <- retry_after_seconds r ;;
    sleep (inject_Z n) ;;;
    ret Continue
  else if bool_decide (status_code r = 500) then
    emit (Warning (ServerError DERIBIT (url r) (text r))) ;;;
    sleep retry_wait ;;;
    ret Continue
  else
    (if bool_decide (status_code r ≠ 200) then _handle_error r
     else sleep RATE_LIMIT_SLEEP) ;;;
    let orig_data := json r in
    advance orig_data ;;;
    page <- comprehension _trade_normalization orig_data ;;
    emit (Yield page) ;;;
    c <- get ;;
    if (Z.of_nat (length orig_data) <? REQUEST_LIMIT)
       || negb (Py.truthy (start c)) || negb (Py.truthy (end_ c))
    then ret Break
    else ret Continue.

(** The [while True] loop. [retry] only reaches the [request_retry]
    decorator of [helper], whose own retries (of transport failures) are
    inside one call of [helper]: the script holds what [helper] returns. *)
Fixpoint _get_trades_loop (instrument : string) (retry : option Z)
    (retry_wait : Q) (script : list (response (list Native.t)))
    (st : cursor * list event) : outcome unit * (cursor * list event) :=
  match script with
  | [] => (Pending (helper instrument st.1), st)
  | r :: script' =>
      match (emit (Get (helper instrument st.1)) ;;;
             _get_trades_body retry_wait r) st with
      | (inl e, st') => (Raised e, st')
      | (inr Break, st') => (Returned (), st')
      | (inr Continue, st') =>
          _get_trades_loop instrument retry retry_wait script' st'
      end
  end.

Definition _get_trades (utcnow : datelike) (instrument : string)
    (start_date end_date : option datelike) (retry : option Z)
    (retry_wait : Q) (script : list (response (list Native.t)))
  : outcome unit * (cursor * list event) :=
  _get_trades_loop instrument retry retry_wait script
    (window utcnow start_date end_date, []).

Definition trades (utcnow : datelike) (symbol : string)
    (start_date end_date : option datelike) (retry : option Z)
    (retry_wait : Q) (script : list (response (list Native.t)))
  : outcome unit * (cursor * list event) :=
  _get_trades utcnow (std_symbol_to_exchange_symbol symbol)
    start_date end_date retry retry_wait script.

(** The pages a run has yielded, in order. *)
Definition pages (trace : list event) : list (list (Trade.t instant)) :=
  omap (fun ev => match ev with Yield p => Some p | _ => None end) trace.

(** *** [_book] *)

Definition book_url (symbol : string) : string :=
  api +:+ "get_order_book?depth=10000&instrument_name=" +:+ symbol.

(** Lines 114-127. *)
Definition _book_body (retry : option Z) (retry_wait : Q)
    (r : response book_result) : M book_locals control :=
  if bool_decide (status_code r = 429) then
    n <- retry_after_seconds r ;;
    sleep (inject_Z n) ;;;
    ret Continue
  else if bool_decide (status_code r = 500) then
    emit (Warning (ServerError DERIBIT (url r) (text r))) ;;;
    sleep retry_wait ;;;
    if bool_decide (retry = Some 0) then ret Break else ret Continue
  else
    (if bool_decide (status_code r ≠ 200) then _handle_error r else ret ()) ;;;
    modify (fun l => {| ret_ := ret_ l; data := Some (json r) |}) ;;;
    ret Break.

Fixpoint _book_loop (symbol : string) (retry : option Z) (retry_wait : Q)
    (script : list (response book_result)) (st : book_locals * list event)
  : outcome unit * (book_locals * list event) :=
  match script with
  | [] => (Pending (book_url symbol), st)
  | r :: script' =>
      match (emit (Get (book_url symbol)) ;;;
             _book_body retry retry_wait r) st with
      | (inl e, st') => (Raised e, st')
      | (inr Break, st') => (Returned (), st')
      | (inr Continue, st') => _book_loop symbol retry retry_wait script' st'
      end
  end.

(** [ret[symbol][side][price] = amount] *)
Definition setitem (symbol : string) (side : book_side) (price amount : Qc)
  : M book_locals unit :=
  modify (fun l =>
    {| ret_ := alter (on_side side (SortedDict.setitem price amount))
                 symbol (ret_ l);
       data := data l |}).

(** Lines 129-132; reading [data] before it is bound raises. *)
Definition fill (symbol : string) : M book_locals unit :=
  for_each [(Bid, bids); (Ask, asks)] (fun '(side, key) =>
    l <- get ;;
    match data l with
    | None => raise (UnboundLocalError "data")
    | Some d =>
        for_each (key d) (fun '(price, amount) =>
          setitem symbol side price amount)
    end).

Definition _book (symbol : string) (retry : option Z) (retry_wait : Q)
    (script : list (response book_result))
  : outcome (gmap string book) * list event :=
  let symbol := std_symbol_to_exchange_symbol symbol in
  let ret0 := {[ symbol := {| BID := SortedDict.empty;
                              ASK := SortedDict.empty |} ]} in
  match _book_loop symbol retry retry_wait script
          ({| ret_ := ret0; data := None |}, []) with
  | (Returned _, st) =>
      match fill symbol st with
      | (inr _, (l, trace)) => (Returned (ret_ l), trace)
      | (inl e, (_, trace)) => (Raised e, trace)
      end
  | (Raised e, (_, trace)) => (Raised e, trace)
  | (Pending u, (_, trace)) => (Pending u, trace)
  end.

Definition l2_book (symbol : string) (retry : option Z) (retry_wait : Q)
    (script : list (response book_result))
  : outcome (gmap string book) * list event :=
  _book symbol retry retry_wait script.

End Deribit.

(** ** A concrete exchange and server answers

    An instance of the collaborators, and some answers of the server, on
    which the closed examples below run the code. Normalized timestamps
    are kept as the integers of the wire. *)

Module Sample.

(** The examples hold ASCII strings only, so nothing of them depends on
    this table. *)
#[export] Instance unicode : Py.Unicode := {|
  Py.int_non_ascii := fun _ => None
|}.

#[export] Instance rest : RestAPI := {|
  instant := Z;
  datelike := Z;
  Timestamp := Z;
  DERIBIT := "DERIBIT";
  timestamp_normalize := fun ts => ts;
  std_symbol_to_exchange_symbol := fun s => s;
  _timestamp := fun d => d
|}.

(** Dates are passed as pandas timestamps, which [_timestamp] returns as
    they are. *)
#[export] Instance pandas : Pandas := {|
  sub_nanosecond := Pd.sub_nanosecond;
  epoch_ms := Pd.epoch_ms
|}.

Definition instrument : string := "BTC-PERPETUAL".

Definition trade (ts : Z) (tid dir : string) : Native.t :=
  Native.mk ts instrument tid dir (Q2Qc 1) (Q2Qc (9500 # 1)).

Definition answer {B} (code : Z) (header : option string) (body : B)
  : response B :=
  {| status_code := code; retry_after := header;
     url := "https://www.deribit.com/"; text := ""; json := body |}.

Definition no_book : book_result := {| bids := []; asks := [] |}.

(** A page filled to the limit with trades of one timestamp. *)
Definition full_page (ts : Z) : list Native.t :=
  replicate (Z.to_nat REQUEST_LIMIT) (trade ts "7" "buy").

(** Windows, pages and answers of the examples. *)
Definition bounded : cursor := {| start := Some 5; end_ := Some 100 |}.

Definition two_trades : response (list Native.t) :=
  answer 200 None [trade 5 "1" "buy"; trade 7 "2" "sell"].

Definition saturated : response (list Native.t) :=
  answer 200 None [trade 5 "1" "buy"; trade 5 "2" "sell"].

Definition two_canonical : list (Trade.t instant) :=
  [Trade.mk 5 instrument 1 "DERIBIT" BUY (Q2Qc 1) (Q2Qc (9500 # 1));
   Trade.mk 7 instrument 2 "DERIBIT" SELL (Q2Qc 1) (Q2Qc (9500 # 1))].

Definition book_answer : response book_result :=
  answer 200 None
    {| bids := [(Q2Qc (3 # 1), Q2Qc 1); (Q2Qc (2 # 1), Q2Qc 1);
                (Q2Qc (3 # 1), Q2Qc (9 # 1))];
       asks := [(Q2Qc (5 # 1), Q2Qc 1)] |}.

Definition slow_down {B} (seconds : string) (body : B) : response B :=
  answer 429 (Some seconds) body.

Definition from_epoch : cursor := {| start := Some 0; end_ := Some 100 |}.

(** A page whose second trade carries an id that is no integer. *)
Definition eth_trades : response (list Native.t) :=
  answer 200 None [trade 5 "1" "buy"; trade 7 "ETH-2696097" "sell"].

Definition empty_page : response (list Native.t) := answer 200 None [].

Definition server_error {B} (body : B) : response B := answer 500 None body.

Definition full_canonical (ts : Z) : list (Trade.t instant) :=
  replicate (Z.to_nat REQUEST_LIMIT)
    (Trade.mk ts instrument 7 "DERIBIT" BUY (Q2Qc 1) (Q2Qc (9500 # 1))).


End Sample.

(** ** The words of the specification *)

(** Last write wins: the amount paired with the last entry of [entries]
    whose price is [p]. *)
Fixpoint last_write (p : Qc) (entries : list (Qc * Qc)) : option Qc :=
  match entries with
  | [] => None
  | (k, v) :: entries' =>
      match last_write p entries' with
      | Some a => Some a
      | None => if bool_decide (k = p) then Some v else None
      end
  end.

(** The dictionary after [d[price] = amount] for each entry, in order. *)
Definition writes (entries : list (Qc * Qc)) (d : SortedDict.t)
  : SortedDict.t :=
  foldl (λ d '(price, amount), SortedDict.setitem price amount d) d entries.

(** Iteration over a dictionary is by ascending key. *)
Definition ascending (d : SortedDict.t) : Prop :=
  StronglySorted Qclt (SortedDict.keys d).

(** A 429 whose [Retry-After] header gives a number of seconds. *)
Definition rate_limited `{Py.Unicode} {B} (r : response B) : Prop :=
  status_code r = 429 ∧
  ∃ n, retry_after r ≫= Py.int = Some n ∧ 0 ≤ n.

(** A 429 that says how long to wait: the header is the integer literal
    of a number of seconds that [time.sleep] accepts. *)
Definition asks_to_wait `{Py.Unicode} {B} (r : response B) : Prop :=
  status_code r = 429 ∧
  ∃ n, retry_after r ≫= Py.int = Some n ∧ 0 ≤ n ∧ (inject_Z n <= SLEEP_MAX)%Q.

(** The seconds to wait that a rate-limited response asks for. *)
Definition wait_of `{Py.Unicode} {B} (r : response B) : Z :=
  default 0 (retry_after r ≫= Py.int).

(** What a run does while it is answered by the rate-limited responses
    [rs]: it requests [u] and sleeps as long as each asks. *)
Definition waits `{Py.Unicode} `{RestAPI} {B} (u : string)
    (rs : list (response B))
  : list event :=
  rs ≫= (λ r, [Get u; Sleep (inject_Z (wait_of r))]).

(** The bound is missing or zero: what [not start], [not end] test. *)
Definition falsy (x : option Z) : Prop := x = None ∨ x = Some 0.

(** The page that an answer contributes to a run: the normalized trades of
    a 200 whose trade ids are all integers, and nothing otherwise. *)
Definition page_of `{Py.Unicode} `{RestAPI} (r : response (list Native.t))
  : option (list (Trade.t instant)) :=
  if bool_decide (status_code r = 200) then
    match traverse _trade_normalization (json r) with
    | inr page => Some page
    | inl _ => None
    end
  else None.

(** The requests of a trace, in order. *)
Definition requests `{RestAPI} (trace : list event) : list string :=
  omap (fun ev => match ev with Get u => Some u | _ => None end) trace.

(** What a run does while it is answered by the server errors [rs] and
    retries them: request, warning, sleep of [retry_wait]. *)
Definition retries `{RestAPI} {B} (u : string) (retry_wait : Q)
    (rs : list (response B)) : list event :=
  rs ≫= (λ r, [Get u; Warning (ServerError DERIBIT (url r) (text r));
               Sleep retry_wait]).

(** A page filled to the limit that normalizes to [page] and whose last
    trade was made after the epoch. *)
Definition full_page_of `{Py.Unicode} `{RestAPI}
    (r : response (list Native.t))
    (page : list (Trade.t instant)) : Prop :=
  status_code r = 200
  ∧ traverse _trade_normalization (json r) = inr page
  ∧ REQUEST_LIMIT ≤ Z.of_nat (length (json r))
  ∧ ∃ t, list.last (json r) = Some t ∧ 0 < Native.timestamp t.

(** The trade id is an integer literal. *)
Definition id_ok `{Py.Unicode} (t : Native.t) : Prop :=
  is_Some (Py.int (Native.trade_id t)).

(** * Properties *)

Section Normalizer.
Context {py : Py.Unicode} `{Pandas}.

Lemma normalization_raises (trade : Native.t) :
  Py.int (Native.trade_id trade) = None →
  _trade_normalization trade = inl ValueError.
Proof. intros Hid. unfold _trade_normalization. now rewrite Hid. Qed.

(** C6. Whenever the native [trade_id] coerces to an integer [n], the
    normalizer returns a canonical trade whose side is BUY exactly when
    the native direction is the string "buy" and SELL for every other
    direction, whose id is [n], and whose amount, price and instrument
    name are those of the native record; the timestamp goes through
    [timestamp_normalize] and the feed is the exchange id. Being a
    function, the result depends on the native record only. *)
Theorem trade_normalization_spec (trade : Native.t) (n : Z) :
  Py.int (Native.trade_id trade) = Some n →
  ∃ c, _trade_normalization trade = inr c
       ∧ (Trade.side c = BUY ↔ Native.direction trade = "buy")
       ∧ (Trade.side c = SELL ↔ Native.direction trade ≠ "buy")
       ∧ Trade.id c = n
       ∧ Trade.amount c = Native.amount trade
       ∧ Trade.price c = Native.price trade
       ∧ Trade.symbol c = Native.instrument_name trade
       ∧ Trade.timestamp c = timestamp_normalize (Native.timestamp trade)
       ∧ Trade.feed c = DERIBIT.
Proof.
  intros Hid. unfold _trade_normalization. rewrite Hid.
  eexists. split; [reflexivity|]. cbn.
  destruct (String.eqb_spec (Native.direction trade) "buy") as [Hbuy|Hbuy];
    repeat split; try done.
Qed.

End Normalizer.

Section Paginator.
Context {py : Py.Unicode} `{Pandas}.
Implicit Types (c : cursor) (tr : list event).
Implicit Types (r : response (list Native.t)).

(** *** The cursor rule, lines 67-77 *)

Lemma advance_empty c tr :
  advance [] (c, tr)
  = (inr (), (c, tr ++ [Warning (NoData DERIBIT (start c) (end_ c))])).
Proof. reflexivity. Qed.

Lemma advance_saturated trades t c tr :
  list.last trades = Some t →
  start c = Some (Native.timestamp t) →
  advance trades (c, tr)
  = (inr (), ({| start := Some (Native.timestamp t + 1); end_ := end_ c |},
              tr ++ [Warning (Saturated DERIBIT (start c))])).
Proof.
  intros Hlast Hs. unfold advance, bind, get, modify, emit. cbn.
  rewrite Hlast, bool_decide_eq_true_2 by congruence.
  cbn. rewrite Hs. reflexivity.
Qed.

Lemma advance_moved trades t c tr :
  list.last trades = Some t →
  start c ≠ Some (Native.timestamp t) →
  advance trades (c, tr)
  = (inr (), ({| start := Some (Native.timestamp t); end_ := end_ c |}, tr)).
Proof.
  intros Hlast Hs. unfold advance, bind, get, modify. cbn.
  rewrite Hlast, bool_decide_eq_false_2 by congruence.
  reflexivity.
Qed.

(** [advance] never raises, only appends to the trace and keeps [end]. *)
Lemma advance_total trades c tr :
  ∃ c' warnings,
    advance trades (c, tr) = (inr (), (c', tr ++ warnings))
    ∧ end_ c' = end_ c
    ∧ Forall (λ ev, ∃ w, ev = Warning w) warnings.
Proof.
  destruct (list.last trades) as [t|] eqn:Hlast.
  - destruct (decide (start c = Some (Native.timestamp t))) as [Hs|Hs].
    + eexists _, [_]. rewrite (advance_saturated _ t) by done.
      repeat split; eauto.
    + eexists _, []. rewrite (advance_moved _ t), app_nil_r by done.
      repeat split; eauto.
  - apply last_None in Hlast as ->. eexists _, [_]. rewrite advance_empty.
    repeat split; eauto.
Qed.

(** After a non-empty page the cursor is a non-zero integer or the page's
    last timestamp. *)
Lemma advance_nonempty trades t c tr :
  list.last trades = Some t →
  ∃ s, start (advance trades (c, tr)).2.1 = Some s
       ∧ (s = Native.timestamp t ∨ (s = Native.timestamp t + 1 ∧
                                    start c = Some (Native.timestamp t))).
Proof.
  intros Hlast.
  destruct (decide (start c = Some (Native.timestamp t))) as [Hs|Hs].
  - rewrite (advance_saturated _ t) by done. cbn. eauto.
  - rewrite (advance_moved _ t) by done. cbn. eauto.
Qed.

(** *** One turn of the loop, by status *)

Lemma body_rate_limited rw r c tr :
  rate_limited r →
  _get_trades_body rw r (c, tr)
  = (inr Continue, (c, tr ++ [Sleep (inject_Z (wait_of r))])).
Proof.
  intros [Hst (n & Hn & Hpos)]. unfold _get_trades_body, wait_of.
  rewrite bool_decide_eq_true_2 by done.
  unfold bind, retry_after_seconds, sleep. rewrite Hn. cbn.
  destruct (retry_after r) as [h|]; [|done]. cbn in Hn. rewrite Hn. cbn.
  replace (Qle_bool 0 (inject_Z n)) with true; [done|].
  symmetry. apply Qle_bool_iff. unfold Qle. cbn. lia.
Qed.

Lemma body_server_error rw r c tr :
  status_code r = 500 →
  _get_trades_body rw r (c, tr)
  = if Qle_bool 0 rw
    then (inr Continue,
          (c, tr ++ [Warning (ServerError DERIBIT (url r) (text r)); Sleep rw]))
    else (inl ValueError,
          (c, tr ++ [Warning (ServerError DERIBIT (url r) (text r))])).
Proof.
  intros Hst. unfold _get_trades_body.
  rewrite bool_decide_eq_false_2 by lia.
  rewrite bool_decide_eq_true_2 by done.
  unfold bind, sleep, emit. cbn.
  destruct (Qle_bool 0 rw); cbn; [|done].
  by rewrite <- app_assoc.
Qed.

Lemma body_fatal rw r c tr :
  status_code r ≠ 429 → status_code r ≠ 500 → status_code r ≠ 200 →
  _get_trades_body rw r (c, tr)
  = (inl (HTTPError (status_code r)),
     (c, tr ++ [HandleError (status_code r)])).
Proof.
  intros H1 H2 H3. unfold _get_trades_body.
  rewrite !bool_decide_eq_false_2 by done.
  rewrite bool_decide_eq_true_2 by done.
  reflexivity.
Qed.

(** Whether the loop stops after a page of [n] raw trades. *)
Lemma body_success rw r c tr :
  status_code r = 200 →
  _get_trades_body rw r (c, tr)
  = let st := (advance (json r) (c, tr ++ [Sleep RATE_LIMIT_SLEEP])).2 in
    match traverse _trade_normalization (json r) with
    | inl e => (inl e, st)
    | inr page =>
        (inr (if (Z.of_nat (length (json r)) <? REQUEST_LIMIT)
                 || negb (Py.truthy (start st.1))
                 || negb (Py.truthy (end_ st.1))
              then Break else Continue),
         (st.1, st.2 ++ [Yield page]))
    end.
Proof.
  intros Hst.
  destruct (advance_total (json r) c (tr ++ [Sleep RATE_LIMIT_SLEEP]))
    as (c' & ws & Hadv & _ & _).
  unfold _get_trades_body.
  rewrite !bool_decide_eq_false_2 by lia.
  unfold bind, sleep, emit, comprehension, get, ret, raise.
  change (Qle_bool 0 RATE_LIMIT_SLEEP) with true.
  cbv beta iota. cbn [fst snd]. rewrite Hadv. cbn [fst snd].
  destruct (traverse _trade_normalization (json r)) as [e|page]; [done|].
  cbn [fst snd]. by destruct (_ || _ || _).
Qed.

(** *** The loop *)

Lemma loop_step i retry rw r script c tr :
  _get_trades_loop i retry rw (r :: script) (c, tr)
  = match _get_trades_body rw r (c, tr ++ [Get (helper i c)]) with
    | (inl e, st') => (Raised e, st')
    | (inr Break, st') => (Returned (), st')
    | (inr Continue, st') => _get_trades_loop i retry rw script st'
    end.
Proof. reflexivity. Qed.

Lemma truthy_false (x : option Z) : Py.truthy x = false ↔ falsy x.
Proof.
  unfold falsy. destruct x as [n|]; cbn; [|tauto].
  rewrite negb_false_iff, Z.eqb_eq. split; [intros ->; tauto|].
  intros [|]; congruence.
Qed.

Lemma truthy_true (x : option Z) : Py.truthy x = true ↔ ¬ falsy x.
Proof.
  rewrite <- truthy_false. destruct (Py.truthy x); naive_solver.
Qed.

(** The loop's decision after a page, as a proposition. *)
Lemma stop_test (n : nat) c :
  (Z.of_nat n <? REQUEST_LIMIT) || negb (Py.truthy (start c))
    || negb (Py.truthy (end_ c)) = true
  ↔ Z.of_nat n < REQUEST_LIMIT ∨ falsy (start c) ∨ falsy (end_ c).
Proof.
  rewrite !orb_true_iff, !negb_true_iff, !truthy_false, Z.ltb_lt. tauto.
Qed.

(** C1. In a bounded window, a turn of the loop that receives a 200
    response leaves the cursor unchanged when the raw page is empty; sets
    it to the last raw trade's timestamp, with no warning, when that
    timestamp differs from the cursor; and when it equals the cursor logs
    the saturation warning and sets the cursor to the previous start plus
    one. *)
Theorem cursor_after_page rw r (s e : Z) tr :
  status_code r = 200 →
  let st' := (_get_trades_body rw r
                ({| start := Some s; end_ := Some e |}, tr)).2 in
  (json r = [] → start st'.1 = Some s)
  ∧ (∀ t, list.last (json r) = Some t → Native.timestamp t ≠ s →
          start st'.1 = Some (Native.timestamp t)
          ∧ ∀ w, Warning w ∉ drop (length tr) st'.2)
  ∧ (∀ t, list.last (json r) = Some t → Native.timestamp t = s →
          start st'.1 = Some (s + 1)
          ∧ Warning (Saturated DERIBIT (Some s)) ∈ drop (length tr) st'.2).
Proof.
  intros Hst st'. subst st'. rewrite body_success by done.
  set (c := {| start := Some s; end_ := Some e |}).
  repeat split.
  - intros ->. cbn. done.
  - rewrite (advance_moved _ t) by (cbn; congruence).
    cbn. by destruct (traverse _ _).
  - rewrite (advance_moved _ t) by (cbn; congruence).
    intros w. cbn.
    destruct (traverse _ _) as [?|page]; cbn;
      rewrite <- ?app_assoc, drop_app_length; cbn;
      rewrite ?elem_of_cons, elem_of_nil; intuition discriminate.
  - subst s. rewrite (advance_saturated _ t) by done.
    cbn. by destruct (traverse _ _).
  - subst s. rewrite (advance_saturated _ t) by done. cbn.
    destruct (traverse _ _) as [?|page]; cbn;
      rewrite <- ?app_assoc, drop_app_length; cbn;
      rewrite !elem_of_cons; auto.
Qed.

Lemma pages_app tr1 tr2 : pages (tr1 ++ tr2) = pages tr1 ++ pages tr2.
Proof. apply omap_app. Qed.

Lemma pages_warnings ws :
  Forall (λ ev, ∃ w, ev = Warning w) ws → pages ws = [].
Proof. induction 1 as [|ev ws [w ->] _ IH]; [done|]. exact IH. Qed.

(** A turn of the loop only appends to the trace, keeps [end], and
    yields a page exactly when it receives a 200 whose trades normalize. *)
Lemma body_shape rw r c tr :
  ∃ c' new,
    (_get_trades_body rw r (c, tr)).2 = (c', tr ++ new)
    ∧ end_ c' = end_ c
    ∧ match (_get_trades_body rw r (c, tr)).1 with
      | inl _ => pages new = []
      | inr Break => length (pages new) = 1%nat
      | inr Continue =>
          (pages new = [] ∧ c' = c)
          ∨ (Py.truthy (end_ c) = true ∧ length (pages new) = 1%nat)
      end.
Proof.
  destruct (decide (status_code r = 429)) as [H429|H429].
  { unfold _get_trades_body. rewrite bool_decide_eq_true_2 by done.
    unfold bind, retry_after_seconds, sleep, emit, raise, ret.
    destruct (retry_after r) as [h|]; [|by exists c, []; rewrite app_nil_r].
    destruct (Py.int h) as [n|]; [|by exists c, []; rewrite app_nil_r].
    destruct (Qle_bool 0 (inject_Z n)); [|by exists c, []; rewrite app_nil_r].
    exists c, [Sleep (inject_Z n)]. cbn. auto. }
  destruct (decide (status_code r = 500)) as [H500|H500].
  { rewrite body_server_error by done.
    destruct (Qle_bool 0 rw); eexists c, _; cbn; auto. }
  destruct (decide (status_code r = 200)) as [H200|H200].
  - rewrite body_success by done.
    destruct (advance_total (json r) c (tr ++ [Sleep RATE_LIMIT_SLEEP]))
      as (c' & ws & Hadv & Hend & Hws).
    rewrite Hadv. cbn [snd fst].
    apply pages_warnings in Hws.
    destruct (traverse _trade_normalization (json r)) as [e|page].
    + exists c', (Sleep RATE_LIMIT_SLEEP :: ws). cbn [snd fst].
      rewrite <- app_assoc. auto.
    + exists c', (Sleep RATE_LIMIT_SLEEP :: ws ++ [Yield page]).
      cbn [snd fst]. rewrite <- !app_assoc. split; [done|]. split; [done|].
      assert (length (pages (Sleep RATE_LIMIT_SLEEP :: ws ++ [Yield page]))
              = 1%nat) as Hone.
      { change (length (pages (ws ++ [Yield page])) = 1%nat).
        by rewrite pages_app, Hws. }
      destruct (_ || _ || _) eqn:Hstop; [done|].
      right. split; [|done].
      rewrite !orb_false_iff, !negb_false_iff in Hstop.
      rewrite <- Hend. tauto.
  - rewrite body_fatal by done. eexists c, _. cbn. auto.
Qed.

(** With no usable [end] a run yields at most one page, and exactly one
    when it returns: the generator is exhausted right after its page. *)
Lemma unbounded_one_page i retry rw script :
  ∀ c tr,
    falsy (end_ c) →
    ∃ new,
      (_get_trades_loop i retry rw script (c, tr)).2.2 = tr ++ new
      ∧ match (_get_trades_loop i retry rw script (c, tr)).1 with
        | Returned _ => length (pages new) = 1%nat
        | _ => pages new = []
        end.
Proof.
  induction script as [|r script IH]; intros c tr Hend.
  { exists []. cbn. by rewrite app_nil_r. }
  rewrite loop_step.
  destruct (body_shape rw r c (tr ++ [Get (helper i c)]))
    as (c' & new & Hst & Hend' & Hres).
  destruct (_get_trades_body rw r (c, tr ++ [Get (helper i c)]))
    as [[e|[]] st']; cbn [fst snd] in *; subst st'.
  - exists (Get (helper i c) :: new). cbn [fst snd].
    by rewrite <- app_assoc.
  - destruct Hres as [[Hnone ->]|[Htrue _]].
    + destruct (IH c (tr ++ [Get (helper i c)] ++ new)) as (new' & Hn & Hp);
        [done|].
      rewrite <- app_assoc.
      exists (Get (helper i c) :: new ++ new').
      split; [by rewrite Hn, <- !app_assoc|].
      change (pages (Get (helper i c) :: new ++ new'))
        with (pages (new ++ new')).
      rewrite pages_app, Hnone. exact Hp.
    + apply truthy_false in Hend. congruence.
  - exists (Get (helper i c) :: new). cbn [fst snd].
    by rewrite <- app_assoc.
Qed.

(** Every turn starts with a request for [helper(start, end)]: a run
    extends the trace by that request first, or is pending on it. *)
Lemma loop_requests_first i retry rw script :
  ∀ c tr,
    ∃ new,
      (_get_trades_loop i retry rw script (c, tr)).2.2 = tr ++ new
      ∧ match script with
        | [] => (_get_trades_loop i retry rw script (c, tr)).1
                = Pending (helper i c)
        | _ :: _ => ∃ rest, new = Get (helper i c) :: rest
        end.
Proof.
  induction script as [|r script IH]; intros c tr.
  { exists []. cbn. by rewrite app_nil_r. }
  rewrite loop_step.
  destruct (body_shape rw r c (tr ++ [Get (helper i c)]))
    as (c' & new & Hst & _ & _).
  destruct (_get_trades_body rw r (c, tr ++ [Get (helper i c)]))
    as [[e|[]] st']; cbn [fst snd] in *; subst st'.
  - exists (Get (helper i c) :: new). cbn [fst snd].
    rewrite <- app_assoc. eauto.
  - destruct (IH c' ((tr ++ [Get (helper i c)]) ++ new)) as (new' & Hn & _).
    exists (Get (helper i c) :: new ++ new').
    rewrite Hn, <- !app_assoc. eauto.
  - exists (Get (helper i c) :: new). cbn [fst snd].
    rewrite <- app_assoc. eauto.
Qed.

Lemma helper_unbounded i c :
  falsy (start c) ∨ falsy (end_ c) →
  helper i c
  = api +:+ "get_last_trades_by_instrument?instrument_name=" +:+ i
        +:+ "&include_old=true&count=1000".
Proof.
  intros Hf. unfold helper.
  replace (Py.truthy (start c) && Py.truthy (end_ c)) with false; [done|].
  symmetry. apply andb_false_iff. rewrite !truthy_false. exact Hf.
Qed.

Lemma helper_bounded i (s e : Z) :
  s ≠ 0 → e ≠ 0 →
  helper i {| start := Some s; end_ := Some e |}
  = api +:+ "get_last_trades_by_instrument_and_time?&start_timestamp="
        +:+ pretty s +:+ "&end_timestamp=" +:+ pretty e
        +:+ "&instrument_name=" +:+ i +:+ "&include_old=true&count=1000".
Proof.
  intros Hs He. unfold helper. cbn [start end_ Py.truthy default].
  destruct (Z.eqb_spec s 0); [done|]. destruct (Z.eqb_spec e 0); done.
Qed.

(** What a 200 response whose trades normalize leaves behind. *)
Lemma page_yielded rw r c tr page :
  status_code r = 200 →
  traverse _trade_normalization (json r) = inr page →
  ∃ c' ws,
    _get_trades_body rw r (c, tr)
    = (inr (if (Z.of_nat (length (json r)) <? REQUEST_LIMIT)
               || negb (Py.truthy (start c')) || negb (Py.truthy (end_ c))
            then Break else Continue),
       (c', tr ++ Sleep RATE_LIMIT_SLEEP :: ws ++ [Yield page]))
    ∧ advance (json r) (c, tr ++ [Sleep RATE_LIMIT_SLEEP])
      = (inr (), (c', (tr ++ [Sleep RATE_LIMIT_SLEEP]) ++ ws))
    ∧ Forall (λ ev, ∃ w, ev = Warning w) ws.
Proof.
  intros Hst Hpage. rewrite body_success, Hpage by done.
  destruct (advance_total (json r) c (tr ++ [Sleep RATE_LIMIT_SLEEP]))
    as (c' & ws & Hadv & Hend & Hws).
  exists c', ws. rewrite Hadv. cbn [fst snd].
  rewrite Hend, <- !app_assoc. done.
Qed.

(** After a page: the loop's decision and what the run does with it. *)
Lemma page_decision i retry rw r script c tr page :
  status_code r = 200 →
  traverse _trade_normalization (json r) = inr page →
  let turn := _get_trades_body rw r (c, tr ++ [Get (helper i c)]) in
  let stop := Z.of_nat (length (json r)) < REQUEST_LIMIT
              ∨ falsy (start turn.2.1) ∨ falsy (end_ c) in
  (turn.1 = inr Break ↔ stop)
  ∧ (stop →
     _get_trades_loop i retry rw (r :: script) (c, tr)
     = (Returned (), turn.2))
  ∧ (¬ stop →
     _get_trades_loop i retry rw (r :: script) (c, tr)
     = _get_trades_loop i retry rw script turn.2).
Proof.
  intros Hst Hpage turn stop.
  destruct (page_yielded rw r c (tr ++ [Get (helper i c)]) page Hst Hpage)
    as (c' & ws & Hturn & _ & _).
  assert (turn.1 = inr Break ↔ stop) as Hiff.
  { subst stop turn. rewrite Hturn. cbn [fst snd].
    rewrite <- (stop_test (length (json r))
                  {| start := start c'; end_ := end_ c |}).
    cbn [start end_]. destruct (_ || _ || _); split; congruence. }
  split; [exact Hiff|split].
  - intros Hstop. apply Hiff in Hstop. rewrite loop_step.
    fold turn. destruct turn as [[e|[]] st']; cbn in *; congruence.
  - intros Hnot. rewrite loop_step. fold turn.
    assert (turn.1 = inr Continue) as Hc.
    { subst turn. rewrite Hturn in *. cbn [fst] in *.
      destruct (_ || _ || _); [tauto|done]. }
    destruct turn as [[e|[]] st']; cbn in *; congruence.
Qed.

(** C2, as the code has it. A turn that receives a 200 yields the page
    and then the loop stops if and only if the raw page holds fewer than
    REQUEST_LIMIT trades, or the start cursor is missing or zero, or the
    end bound is missing or zero; otherwise the next thing the run does is
    the request for the advanced cursor. With both bounds absent a run, on
    any script, returns after exactly one page and yields none if it does
    not return. *)
Theorem pagination_stops_iff i retry rw r script c tr page :
  status_code r = 200 →
  traverse _trade_normalization (json r) = inr page →
  let turn := _get_trades_body rw r (c, tr ++ [Get (helper i c)]) in
  let st := turn.2 in
  let stop := Z.of_nat (length (json r)) < REQUEST_LIMIT
              ∨ falsy (start st.1) ∨ falsy (end_ c) in
  list.last st.2 = Some (Yield page)
  ∧ (turn.1 = inr Break ↔ stop)
  ∧ (stop →
     _get_trades_loop i retry rw (r :: script) (c, tr) = (Returned (), st))
  ∧ (¬ stop →
     _get_trades_loop i retry rw (r :: script) (c, tr)
     = _get_trades_loop i retry rw script st
     ∧ ∃ new,
         (_get_trades_loop i retry rw script st).2.2 = st.2 ++ new
         ∧ match script with
           | [] => (_get_trades_loop i retry rw script st).1
                   = Pending (helper i st.1)
           | _ :: _ => ∃ rest, new = Get (helper i st.1) :: rest
           end)
  ∧ (∀ script0 tr0,
       let run := _get_trades_loop i retry rw script0
                    ({| start := None; end_ := None |}, tr0) in
       ∃ new, run.2.2 = tr0 ++ new
              ∧ match run.1 with
                | Returned _ => length (pages new) = 1%nat
                | _ => pages new = []
                end).
Proof.
  intros Hst Hpage turn st stop.
  destruct (page_decision i retry rw r script c tr page Hst Hpage)
    as (Hiff & Hstop & Hgo).
  destruct (page_yielded rw r c (tr ++ [Get (helper i c)]) page Hst Hpage)
    as (c' & ws & Hturn & _ & _).
  split; [|split; [exact Hiff|split; [exact Hstop|split]]].
  - subst st turn. rewrite Hturn. cbn [snd].
    by rewrite app_comm_cons, app_assoc, last_snoc.
  - intros Hnot. split; [by apply Hgo|].
    destruct st as [c1 tr1]. apply loop_requests_first.
  - intros script0 tr0 run. apply unbounded_one_page. by left.
Qed.

(** Without a start date the run is the loop from no bounds at all, and
    with one both bounds are integers. *)
Lemma window_shape utcnow start_date end_date :
  match start_date with
  | None => window utcnow start_date end_date
            = {| start := None; end_ := None |}
  | Some _ => ∃ s e, window utcnow start_date end_date
                     = {| start := Some s; end_ := Some e |}
  end.
Proof. destruct start_date; cbn; eauto. Qed.

(** Lines 36-43 as they stand: a missing end date is the current time, one
    nanosecond is taken off the end, and both instants are converted. *)
Lemma window_bounds utcnow start_date end_date :
  window utcnow (Some start_date) end_date
  = {| start := Some (epoch_ms (_timestamp start_date));
       end_ := Some (epoch_ms (sub_nanosecond
                                 (_timestamp (default utcnow end_date)))) |}.
Proof. reflexivity. Qed.

Lemma no_start_date utcnow i end_date retry rw script :
  _get_trades utcnow i None end_date retry rw script
  = _get_trades_loop i retry rw script
      ({| start := None; end_ := None |}, []).
Proof. reflexivity. Qed.

(** *** Retries of the trade loop *)

(** While the answers are rate-limited the loop repeats the same request,
    sleeping what each answer asks; neither the cursor nor [retry] plays
    a part. *)
Lemma trades_rate_limited i retry rw rs script c :
  Forall rate_limited rs →
  ∀ tr,
    _get_trades_loop i retry rw (rs ++ script) (c, tr)
    = _get_trades_loop i retry rw script (c, tr ++ waits (helper i c) rs).
Proof.
  induction 1 as [|r rs Hr _ IH]; intros tr.
  { cbn [app waits mbind list_bind]. by rewrite app_nil_r. }
  cbn [app]. rewrite loop_step, body_rate_limited by done.
  rewrite IH. unfold waits. cbn [mbind list_bind].
  by rewrite <- !app_assoc.
Qed.

(** C4, as the code has it. In the trade loop a 500 is answered, for every
    retry budget and so for [max_retries == 0] as well, by the warning, a
    sleep of [retry_wait] (a length from 0 to [SLEEP_MAX]) and the same
    request again: the run goes on with the rest of the script from the
    unchanged cursor. *)
Theorem server_error_retried i retry rw r script c tr :
  status_code r = 500 →
  (0 <= rw)%Q →
  (rw <= SLEEP_MAX)%Q →
  _get_trades_loop i retry rw (r :: script) (c, tr)
  = _get_trades_loop i retry rw script
      (c, tr ++ [Get (helper i c);
                 Warning (ServerError DERIBIT (url r) (text r));
                 Sleep rw]).
Proof.
  intros Hst Hrw _. rewrite loop_step, body_server_error by done.
  apply Qle_bool_iff in Hrw. rewrite Hrw. by rewrite <- app_assoc.
Qed.

(** C10, as the code has it. From a window whose start resolves to 0 the
    first request is the one without time parameters, whatever the end.
    If the 200 page it receives is shorter than REQUEST_LIMIT, or the end
    is missing or zero, the run returns after that one page. After a full
    page with a usable end the cursor is a non-zero integer and the run
    continues with the time-bounded request. *)
Theorem zero_start_window i retry rw r script (e : option Z) tr page :
  status_code r = 200 →
  traverse _trade_normalization (json r) = inr page →
  let c := {| start := Some 0; end_ := e |} in
  let st := (_get_trades_body rw r (c, tr ++ [Get (helper i c)])).2 in
  helper i c = helper i {| start := None; end_ := None |}
  ∧ helper i c
    = api +:+ "get_last_trades_by_instrument?instrument_name=" +:+ i
          +:+ "&include_old=true&count=1000"
  ∧ (Z.of_nat (length (json r)) < REQUEST_LIMIT ∨ falsy e →
     _get_trades_loop i retry rw (r :: script) (c, tr) = (Returned (), st)
     ∧ pages (drop (length tr) st.2) = [page])
  ∧ (REQUEST_LIMIT ≤ Z.of_nat (length (json r)) → ¬ falsy e →
     _get_trades_loop i retry rw (r :: script) (c, tr)
     = _get_trades_loop i retry rw script st
     ∧ ∃ s' e', st.1 = {| start := Some s'; end_ := Some e' |}
                ∧ s' ≠ 0 ∧ e = Some e' ∧ e' ≠ 0
                ∧ helper i st.1
                  = api +:+ "get_last_trades_by_instrument_and_time?&start_timestamp="
                      +:+ pretty s' +:+ "&end_timestamp=" +:+ pretty e'
                      +:+ "&instrument_name=" +:+ i
                      +:+ "&include_old=true&count=1000").
Proof.
  intros Hst Hpage c st.
  assert (helper i c
          = api +:+ "get_last_trades_by_instrument?instrument_name=" +:+ i
                +:+ "&include_old=true&count=1000") as Hurl.
  { apply helper_unbounded. left. by right. }
  destruct (page_decision i retry rw r script c tr page Hst Hpage)
    as (_ & Hstop & Hgo).
  destruct (page_yielded rw r c (tr ++ [Get (helper i c)]) page Hst Hpage)
    as (c' & ws & Hturn & Hadv & Hws).
  fold st in Hstop, Hgo.
  assert (st = (c', (tr ++ [Get (helper i c)])
                      ++ Sleep RATE_LIMIT_SLEEP :: ws ++ [Yield page]))
    as Hsteq by (subst st; by rewrite Hturn).
  split; [|split; [exact Hurl|split]].
  - rewrite Hurl. symmetry. apply helper_unbounded. left. by left.
  - intros Hshort. split.
    + apply Hstop. destruct Hshort; [by left|by right; right].
    + rewrite Hsteq. cbn [snd]. rewrite <- app_assoc, drop_app_length.
      change (pages (ws ++ [Yield page]) = [page]).
      by rewrite pages_app, (pages_warnings ws Hws).
  - intros Hfull He.
    destruct (list.last (json r)) as [t|] eqn:Hlast.
    2:{ apply last_None in Hlast. rewrite Hlast in Hfull.
        unfold REQUEST_LIMIT in Hfull. cbn in Hfull. lia. }
    destruct (advance_nonempty (json r) t c
                (tr ++ [Get (helper i c)] ++ [Sleep RATE_LIMIT_SLEEP]) Hlast)
      as (s' & Hs' & Hcase).
    rewrite app_assoc, Hadv in Hs'. cbn [fst snd] in Hs'.
    assert (end_ c' = e) as Hend.
    { destruct (advance_total (json r) c
                  ((tr ++ [Get (helper i c)]) ++ [Sleep RATE_LIMIT_SLEEP]))
        as (c1 & ws1 & Hadv1 & Hend1 & _).
      rewrite Hadv in Hadv1. by injection Hadv1 as -> _. }
    assert (s' ≠ 0) as Hnz.
    { destruct Hcase as [->|[-> Heq]]; [|cbn in Heq; injection Heq; lia].
      intros Hzero.
      destruct (decide (start c = Some (Native.timestamp t))) as [Hs|Hs].
      - rewrite (advance_saturated _ t) in Hadv by done.
        injection Hadv as <- _. cbn in Hs'. injection Hs'. lia.
      - cbn in Hs. congruence. }
    destruct e as [e'|]; [|by destruct He; left].
    assert (e' ≠ 0) as Hez by (intros ->; destruct He; by right).
    split.
    + apply Hgo. rewrite Hsteq. cbn [fst]. rewrite Hs'.
      unfold falsy. cbn [end_ c].
      intros [?|[[?|?]|[?|?]]]; try congruence; lia.
    + exists s', e'. rewrite Hsteq. cbn [fst].
      assert (c' = {| start := Some s'; end_ := Some e' |}) as ->.
      { destruct c'. cbn in *. congruence. }
      repeat split; try done. by apply helper_bounded.
Qed.

End Paginator.

Section SortedDictFacts.
Implicit Types (d : SortedDict.t) (k v p a : Qc).

Lemma ascending_cons k v d :
  ascending ((k, v) :: d)
  ↔ ascending d ∧ Forall (λ e, (k < e.1)%Qc) d.
Proof.
  unfold ascending, SortedDict.keys. cbn. split.
  - intros Hs. apply StronglySorted_inv in Hs as [Hd Hk].
    split; [done|]. rewrite Forall_fmap in Hk. exact Hk.
  - intros [Hd Hk]. constructor; [done|]. rewrite Forall_fmap. exact Hk.
Qed.

Lemma setitem_bound x k v d :
  (x < k)%Qc →
  Forall (λ e, (x < e.1)%Qc) d →
  Forall (λ e, (x < e.1)%Qc) (SortedDict.setitem k v d).
Proof.
  intros Hx. induction 1 as [|[k' v'] d Hk' Hd IH]; cbn.
  { by constructor. }
  destruct (k ?= k')%Qc; repeat constructor; auto.
Qed.

Lemma setitem_ascending k v d :
  ascending d → ascending (SortedDict.setitem k v d).
Proof.
  induction d as [|[k' v'] d IH]; cbn.
  { intros _. apply ascending_cons. split; [constructor|constructor]. }
  intros Hs. pose proof Hs as Hs'. apply ascending_cons in Hs' as [Hd Hk'].
  destruct (k ?= k')%Qc eqn:Hcmp.
  - apply ascending_cons. done.
  - apply Qclt_alt in Hcmp. apply ascending_cons. split; [done|].
    constructor; [done|].
    eapply Forall_impl; [exact Hk'|]. cbn. intros e He.
    by eapply Qclt_trans.
  - apply Qcgt_alt in Hcmp. apply ascending_cons. split; [by apply IH|].
    by apply setitem_bound.
Qed.

Lemma below_not_in k p a d :
  Forall (λ e, (k < e.1)%Qc) d → (p, a) ∈ d → (k < p)%Qc.
Proof.
  intros Hk Hin. rewrite Forall_forall in Hk. exact (Hk (p, a) Hin).
Qed.

(** A write replaces the entry of its key and touches no other. *)
Lemma setitem_elem k v d p a :
  ascending d →
  (p, a) ∈ SortedDict.setitem k v d
  ↔ (p = k ∧ a = v) ∨ (p ≠ k ∧ (p, a) ∈ d).
Proof.
  induction d as [|[k' v'] d IH]; cbn.
  { intros _. rewrite list_elem_of_singleton, elem_of_nil.
    split; [intros [= -> ->]; auto|intros [[-> ->]|[_ []]]; done]. }
  intros Hs. apply ascending_cons in Hs as [Hd Hk'].
  destruct (k ?= k')%Qc eqn:Hcmp.
  - apply Qceq_alt in Hcmp as <-. rewrite !elem_of_cons. split.
    + intros [[= -> ->]|Hin]; [auto|]. right.
      pose proof (below_not_in _ _ _ _ Hk' Hin) as Hlt.
      apply Qclt_not_eq in Hlt. split; [congruence|auto].
    + intros [[-> ->]|[Hne [[= -> ->]|Hin]]]; auto. done.
  - apply Qclt_alt in Hcmp. rewrite !elem_of_cons. split.
    + intros [[= -> ->]|[[= -> ->]|Hin]]; [auto| |].
      * right. split; [|auto]. apply Qclt_not_eq in Hcmp. congruence.
      * right. split; [|auto].
        pose proof (below_not_in _ _ _ _ Hk' Hin) as Hlt.
        assert (k < p)%Qc as Hkp by (by eapply Qclt_trans).
        apply Qclt_not_eq in Hkp. congruence.
    + intros [[-> ->]|[Hne [[= -> ->]|Hin]]]; auto.
  - apply Qcgt_alt in Hcmp. rewrite !elem_of_cons, IH by done. split.
    + intros [[= -> ->]|[[-> ->]|[Hne Hin]]]; auto.
      right. split; [|auto]. apply Qclt_not_eq in Hcmp. congruence.
    + intros [[-> ->]|[Hne [[= -> ->]|Hin]]]; auto.
Qed.

(** On an ascending dictionary a lookup finds the entry of the key. *)
Lemma get_elem d p a :
  ascending d → SortedDict.get p d = Some a ↔ (p, a) ∈ d.
Proof.
  induction d as [|[k' v'] d IH]; cbn.
  { intros _. rewrite elem_of_nil. split; [discriminate|done]. }
  intros Hs. apply ascending_cons in Hs as [Hd Hk'].
  rewrite elem_of_cons.
  destruct (p ?= k')%Qc eqn:Hcmp.
  - apply Qceq_alt in Hcmp as ->. split.
    + intros [= ->]. auto.
    + intros [[= ->]|Hin]; [done|].
      pose proof (below_not_in _ _ _ _ Hk' Hin) as Hlt.
      by apply Qclt_not_eq in Hlt.
  - apply Qclt_alt, Qclt_not_eq in Hcmp. rewrite IH by done. split; [auto|].
    intros [[= -> ->]|Hin]; done.
  - apply Qcgt_alt, Qclt_not_eq in Hcmp. rewrite IH by done. split; [auto|].
    intros [[= -> ->]|Hin]; done.
Qed.

Lemma writes_ascending entries d : ascending d → ascending (writes entries d).
Proof.
  revert d. induction entries as [|[k v] entries IH]; intros d Hd; [done|].
  cbn. apply IH. by apply setitem_ascending.
Qed.

(** Last write wins. *)
Lemma writes_elem entries d p a :
  ascending d →
  (p, a) ∈ writes entries d
  ↔ last_write p entries = Some a
    ∨ (last_write p entries = None ∧ (p, a) ∈ d).
Proof.
  revert d. induction entries as [|[k v] entries IH]; intros d Hd; cbn.
  { split; [auto|]. intros [|[_ ?]]; done. }
  fold (writes entries (SortedDict.setitem k v d)).
  rewrite IH by (by apply setitem_ascending).
  rewrite setitem_elem by done.
  destruct (last_write p entries) as [a'|].
  { split; (intros [?|[? _]]; [auto|done]). }
  case_bool_decide as Hk.
  - subst k. split.
    + intros [|[_ [[_ ->]|[? _]]]]; done || auto.
    + intros [[= ->]|[? _]]; [auto|done].
  - split.
    + intros [|[_ [[-> _]|[_ ?]]]]; done || auto.
    + intros [|[_ ?]]; [done|]. right. split; [done|]. right. auto.
Qed.

Lemma last_write_is_Some p entries :
  is_Some (last_write p entries) ↔ p ∈ entries.*1.
Proof.
  induction entries as [|[k v] entries IH]; cbn.
  { rewrite elem_of_nil. split; [by intros [? ?]|done]. }
  rewrite elem_of_cons, <- IH.
  destruct (last_write p entries) as [a'|].
  { split; eauto. }
  case_bool_decide as Hk.
  - subst k. split; eauto.
  - split; [intros [? ?]; done|intros [->|[? ?]]; done].
Qed.

Lemma ascending_NoDup d : ascending d → NoDup (SortedDict.keys d).
Proof.
  unfold ascending. induction 1 as [|k ks Hks IH Hk]; constructor; [|done].
  intros Hin. rewrite Forall_forall in Hk.
  by apply Hk, Qclt_not_eq in Hin.
Qed.

(** What a side of the book holds after the writes of a response. *)
Lemma writes_spec entries :
  let d := writes entries SortedDict.empty in
  ascending d
  ∧ NoDup (SortedDict.keys d)
  ∧ (∀ p, p ∈ SortedDict.keys d ↔ p ∈ entries.*1)
  ∧ (∀ p a, (p, a) ∈ d ↔ last_write p entries = Some a)
  ∧ (∀ p, SortedDict.get p d = last_write p entries).
Proof.
  intros d.
  assert (ascending SortedDict.empty) as H0 by constructor.
  assert (ascending d) as Hd by (by apply writes_ascending).
  assert (∀ p a, (p, a) ∈ d ↔ last_write p entries = Some a) as Helem.
  { intros p a. subst d. rewrite writes_elem by done.
    unfold SortedDict.empty. rewrite elem_of_nil. tauto. }
  split; [done|]. split; [by apply ascending_NoDup|].
  split; [|split; [done|]].
  - intros p. rewrite <- last_write_is_Some. unfold SortedDict.keys.
    rewrite list_elem_of_fmap. split.
    + intros [[p' a] [-> Hin]]. apply Helem in Hin. by exists a.
    + intros [a Ha]. exists (p, a). split; [done|]. by apply Helem.
  - intros p. apply option_eq. intros a. by rewrite get_elem, Helem.
Qed.

End SortedDictFacts.

Section OrderBook.
Context {py : Py.Unicode} `{Pandas}.
Implicit Types (l : book_locals) (tr : list event).
Implicit Types (r : response book_result).

Lemma book_loop_step sym retry rw r script l tr :
  _book_loop sym retry rw (r :: script) (l, tr)
  = match _book_body retry rw r (l, tr ++ [Get (book_url sym)]) with
    | (inl e, st') => (Raised e, st')
    | (inr Break, st') => (Returned (), st')
    | (inr Continue, st') => _book_loop sym retry rw script st'
    end.
Proof. reflexivity. Qed.

Lemma book_body_rate_limited retry rw r l tr :
  rate_limited r →
  _book_body retry rw r (l, tr)
  = (inr Continue, (l, tr ++ [Sleep (inject_Z (wait_of r))])).
Proof.
  intros [Hst (n & Hn & Hpos)]. unfold _book_body, wait_of.
  rewrite bool_decide_eq_true_2 by done.
  unfold bind, retry_after_seconds, sleep. rewrite Hn. cbn.
  destruct (retry_after r) as [h|]; [|done]. cbn in Hn. rewrite Hn. cbn.
  replace (Qle_bool 0 (inject_Z n)) with true; [done|].
  symmetry. apply Qle_bool_iff. unfold Qle. cbn. lia.
Qed.

(** On a 500 the book loop gives up when [retry == 0], leaving [data]
    as it was. *)
Lemma book_body_server_error retry rw r l tr :
  status_code r = 500 →
  _book_body retry rw r (l, tr)
  = if Qle_bool 0 rw
    then (inr (if bool_decide (retry = Some 0) then Break else Continue),
          (l, tr ++ [Warning (ServerError DERIBIT (url r) (text r));
                     Sleep rw]))
    else (inl ValueError,
          (l, tr ++ [Warning (ServerError DERIBIT (url r) (text r))])).
Proof.
  intros Hst. unfold _book_body.
  rewrite bool_decide_eq_false_2 by lia.
  rewrite bool_decide_eq_true_2 by done.
  unfold bind, sleep, emit. cbn.
  destruct (Qle_bool 0 rw); cbn; [|done].
  rewrite <- app_assoc. by case_bool_decide.
Qed.

Lemma book_body_success retry rw r l tr :
  status_code r = 200 →
  _book_body retry rw r (l, tr)
  = (inr Break, ({| ret_ := ret_ l; data := Some (json r) |}, tr)).
Proof.
  intros Hst. unfold _book_body.
  rewrite !bool_decide_eq_false_2 by lia.
  reflexivity.
Qed.

Lemma book_rate_limited sym retry rw rs script l :
  Forall rate_limited rs →
  ∀ tr,
    _book_loop sym retry rw (rs ++ script) (l, tr)
    = _book_loop sym retry rw script (l, tr ++ waits (book_url sym) rs).
Proof.
  induction 1 as [|r rs Hr _ IH]; intros tr.
  { cbn [app waits mbind list_bind]. by rewrite app_nil_r. }
  cbn [app]. rewrite book_loop_step, book_body_rate_limited by done.
  rewrite IH. unfold waits. cbn [mbind list_bind].
  by rewrite <- !app_assoc.
Qed.

(** *** Filling the two sides *)

Lemma for_each_setitem sym side entries :
  ∀ b d tr,
    for_each entries (λ '(price, amount), setitem sym side price amount)
      ({| ret_ := {[ sym := b ]}; data := d |}, tr)
    = (inr (), ({| ret_ := {[ sym := on_side side (writes entries) b ]};
                   data := d |}, tr)).
Proof.
  induction entries as [|[p a] entries IH]; intros b d tr.
  { cbn. by destruct side, b. }
  cbn [for_each]. unfold bind at 1, setitem at 1, modify. cbn [fst snd ret_].
  rewrite alter_singleton_eq. cbn [data].
  destruct side; cbn [on_side]; rewrite IH; by destruct b.
Qed.

Lemma fill_unbound sym l tr :
  data l = None →
  fill sym (l, tr) = (inl (UnboundLocalError "data"), (l, tr)).
Proof. intros Hd. unfold fill. cbn. unfold bind, get. cbn. by rewrite Hd. Qed.

Lemma fill_bound sym b d tr :
  fill sym ({| ret_ := {[ sym := b ]}; data := Some d |}, tr)
  = (inr (), ({| ret_ := {[ sym := {| BID := writes (bids d) (BID b);
                                      ASK := writes (asks d) (ASK b) |} ]};
                 data := Some d |}, tr)).
Proof.
  unfold fill. cbn [for_each]. unfold bind at 1. unfold bind at 1, get at 1.
  cbn [fst snd data]. rewrite for_each_setitem.
  unfold bind at 1. unfold bind at 1, get at 1.
  cbn [fst snd data]. rewrite for_each_setitem. reflexivity.
Qed.

(** C3. With [retry == 0] a 500 ends the book loop before [data] is
    assigned, and the loops over [data] that follow raise: the call
    returns no snapshot. (A negative [retry_wait] raises in [sleep]
    already.) *)
Theorem book_abandon_raises sym rw h u t b script :
  _book sym (Some 0) rw
    ({| status_code := 500; retry_after := h; url := u; text := t;
        json := b |} :: script)
  = if Qle_bool 0 rw
    then (Raised (UnboundLocalError "data"),
          [Get (book_url (std_symbol_to_exchange_symbol sym));
           Warning (ServerError DERIBIT u t); Sleep rw])
    else (Raised ValueError,
          [Get (book_url (std_symbol_to_exchange_symbol sym));
           Warning (ServerError DERIBIT u t)]).
Proof.
  unfold _book. rewrite book_loop_step, book_body_server_error by done.
  destruct (Qle_bool 0 rw); [|done].
  rewrite bool_decide_eq_true_2 by done.
  by rewrite fill_unbound.
Qed.

Lemma book_success sym retry rw rs r script :
  Forall rate_limited rs →
  status_code r = 200 →
  _book sym retry rw (rs ++ r :: script)
  = (Returned
       {[ std_symbol_to_exchange_symbol sym :=
            {| BID := writes (bids (json r)) SortedDict.empty;
               ASK := writes (asks (json r)) SortedDict.empty |} ]},
     waits (book_url (std_symbol_to_exchange_symbol sym)) rs
       ++ [Get (book_url (std_symbol_to_exchange_symbol sym))]).
Proof.
  intros Hrs Hst.
  unfold _book. rewrite book_rate_limited by done.
  rewrite book_loop_step, book_body_success by done.
  cbn [ret_]. by rewrite fill_bound.
Qed.

(** C7. On a 200, reached at once or after rate-limited answers, the call
    returns the snapshot that maps the exchange symbol to two dictionaries,
    having only made its requests and waited as it was asked to. Each
    dictionary is in ascending key order without repeated keys; its keys are
    exactly the prices listed on its side of the response; and each price is
    mapped to the amount of the last entry listing it. *)
Theorem book_snapshot sym retry rw rs r script :
  Forall rate_limited rs →
  status_code r = 200 →
  ∃ b,
    _book sym retry rw (rs ++ r :: script)
    = (Returned {[ std_symbol_to_exchange_symbol sym := b ]},
       waits (book_url (std_symbol_to_exchange_symbol sym)) rs
         ++ [Get (book_url (std_symbol_to_exchange_symbol sym))])
    ∧ (ascending (BID b)
       ∧ NoDup (SortedDict.keys (BID b))
       ∧ (∀ p, p ∈ SortedDict.keys (BID b) ↔ p ∈ (bids (json r)).*1)
       ∧ (∀ p a, (p, a) ∈ BID b ↔ last_write p (bids (json r)) = Some a)
       ∧ (∀ p, SortedDict.get p (BID b) = last_write p (bids (json r))))
    ∧ (ascending (ASK b)
       ∧ NoDup (SortedDict.keys (ASK b))
       ∧ (∀ p, p ∈ SortedDict.keys (ASK b) ↔ p ∈ (asks (json r)).*1)
       ∧ (∀ p a, (p, a) ∈ ASK b ↔ last_write p (asks (json r)) = Some a)
       ∧ (∀ p, SortedDict.get p (ASK b) = last_write p (asks (json r)))).
Proof.
  intros Hrs Hst.
  exists {| BID := writes (bids (json r)) SortedDict.empty;
            ASK := writes (asks (json r)) SortedDict.empty |}.
  split; [by apply book_success|split; apply writes_spec].
Qed.

End OrderBook.

Section Retry.
Context {py : Py.Unicode} `{Pandas}.

Lemma asks_to_wait_rate_limited {B} (r : response B) :
  asks_to_wait r → rate_limited r.
Proof. intros (Hst & n & Hn & Hpos & _). split; [done|]. eauto. Qed.

(** C5, as the code has it. In both loops, as long as the answers are 429s
    whose Retry-After header is the integer literal of a number of
    seconds from 0 to [SLEEP_MAX], the run requests the same URL again
    after sleeping exactly that number of seconds each time, for every
    value of [retry] and [retry_wait]; it then goes on with the first
    other answer from the state it started in. If no other answer comes
    the run is still requesting: no exception has escaped and nothing has
    been yielded or returned. *)
Theorem rate_limit_retried i sym retry rw
    (rs : list (response (list Native.t)))
    (rs' : list (response book_result)) script script' c l tr :
  Forall asks_to_wait rs →
  Forall asks_to_wait rs' →
  _get_trades_loop i retry rw (rs ++ script) (c, tr)
  = _get_trades_loop i retry rw script (c, tr ++ waits (helper i c) rs)
  ∧ _book_loop sym retry rw (rs' ++ script') (l, tr)
    = _book_loop sym retry rw script' (l, tr ++ waits (book_url sym) rs')
  ∧ _get_trades_loop i retry rw rs (c, tr)
    = (Pending (helper i c), (c, tr ++ waits (helper i c) rs))
  ∧ _book_loop sym retry rw rs' (l, tr)
    = (Pending (book_url sym), (l, tr ++ waits (book_url sym) rs')).
Proof.
  intros Hrs Hrs'.
  assert (Forall rate_limited rs) as Hrl
    by (eapply Forall_impl; [exact Hrs|apply @asks_to_wait_rate_limited]).
  assert (Forall rate_limited rs') as Hrl'
    by (eapply Forall_impl; [exact Hrs'|apply @asks_to_wait_rate_limited]).
  repeat split.
  - by apply trades_rate_limited.
  - by apply book_rate_limited.
  - rewrite <- (app_nil_r rs) at 1. by rewrite trades_rate_limited.
  - rewrite <- (app_nil_r rs') at 1. by rewrite book_rate_limited.
Qed.

(** C8, as the code has it. In the trade loop a 200 is followed at once,
    before the body is read, by one sleep of RATE_LIMIT_SLEEP, whatever
    the retry policy, and by no other sleep in that turn. The order-book
    fetch reads the body of a 200 without sleeping at all. *)
Theorem courtesy_sleep rw (r : response (list Native.t)) c tr
    sym retry rw' (r' : response book_result) script :
  status_code r = 200 →
  status_code r' = 200 →
  (∃ rest,
      (_get_trades_body rw r (c, tr)).2.2
      = tr ++ Sleep RATE_LIMIT_SLEEP :: rest
      ∧ ∀ d, Sleep d ∉ rest)
  ∧ (∀ d, Sleep d ∉ (_book sym retry rw' (r' :: script)).2).
Proof.
  intros Hst Hst'. split.
  - rewrite body_success by done.
    destruct (advance_total (json r) c (tr ++ [Sleep RATE_LIMIT_SLEEP]))
      as (c' & ws & Hadv & _ & Hws).
    rewrite Hadv. cbn [fst snd].
    assert (∀ d, Sleep d ∉ ws) as Hno.
    { intros d Hin. rewrite Forall_forall in Hws.
      destruct (Hws _ Hin) as [w Hw]. discriminate. }
    destruct (traverse _trade_normalization (json r)) as [e|page];
      cbn [fst snd]; rewrite <- ?app_assoc.
    + by exists ws.
    + exists (ws ++ [Yield page]). split; [done|].
      intros d. rewrite elem_of_app, list_elem_of_singleton.
      intros [Hin|Heq]; [by eapply Hno|discriminate].
  - rewrite (book_success sym retry rw' [] r' script) by done.
    cbn [snd app waits mbind list_bind]. intros d.
    rewrite list_elem_of_singleton. discriminate.
Qed.

End Retry.

Section Pages.
Context {py : Py.Unicode} `{Pandas}.
Implicit Types (c : cursor) (tr : list event).
Implicit Types (r : response (list Native.t)).

(** *** The list comprehension of line 80 *)

Lemma traverse_Forall2 {A B} (f : A → exn + B) xs ys :
  traverse f xs = inr ys ↔ Forall2 (λ x y, f x = inr y) xs ys.
Proof.
  revert ys. induction xs as [|x xs IH]; intros ys; cbn.
  { split; [intros [= <-]; constructor|by inversion 1]. }
  destruct (f x) as [e|y] eqn:Hx.
  { split; [done|]. inversion 1; congruence. }
  destruct (traverse f xs) as [e|ys'] eqn:Hxs.
  - split; [done|]. inversion 1 as [|? y' ? ys'' _ Hrest]; subst.
    apply IH in Hrest. done.
  - split.
    + intros [= <-]. constructor; [done|]. by apply IH.
    + inversion 1 as [|? y' ? ys'' Hy Hrest]; subst.
      apply IH in Hrest. congruence.
Qed.

Lemma traverse_inl {A B} (f : A → exn + B) xs e :
  traverse f xs = inl e → ∃ x, x ∈ xs ∧ f x = inl e.
Proof.
  induction xs as [|x xs IH]; cbn; [done|].
  destruct (f x) as [e'|y] eqn:Hx.
  { intros [= <-]. exists x. split; [apply list_elem_of_here|done]. }
  destruct (traverse f xs) as [e'|ys]; [|done].
  intros [= <-]. destruct IH as (x' & Hin & Hx'); [done|].
  exists x'. split; [by apply list_elem_of_further|done].
Qed.

Lemma normalization_inl (t : Native.t) e :
  _trade_normalization t = inl e → e = ValueError ∧ ¬ id_ok t.
Proof.
  unfold _trade_normalization, id_ok.
  destruct (Py.int (Native.trade_id t)); [done|].
  intros [= <-]. split; [done|]. by intros [? ?].
Qed.

Lemma normalization_inr (t : Native.t) :
  id_ok t → ∃ x, _trade_normalization t = inr x.
Proof.
  unfold _trade_normalization, id_ok. intros [n ->]. eauto.
Qed.

Lemma traverse_normalization_ok (trades : list Native.t) :
  Forall id_ok trades →
  ∃ page, traverse _trade_normalization trades = inr page.
Proof.
  induction 1 as [|t trades Ht _ (page & IH)]; cbn; [eauto|].
  destruct (normalization_inr t Ht) as (c0 & ->). rewrite IH. eauto.
Qed.

Lemma traverse_normalization_bad (trades : list Native.t) :
  Exists (λ t, ¬ id_ok t) trades →
  traverse _trade_normalization trades = inl ValueError.
Proof.
  intros Hbad.
  destruct (traverse _trade_normalization trades) as [e|page] eqn:Htr.
  - apply traverse_inl in Htr as (t & _ & Ht).
    by apply normalization_inl in Ht as [-> _].
  - apply traverse_Forall2 in Htr. exfalso.
    apply Exists_exists in Hbad as (t & Hin & Ht).
    apply list_elem_of_lookup in Hin as (i & Hi).
    destruct (Forall2_lookup_l _ _ _ _ _ Htr Hi) as (c0 & _ & Hc).
    apply Ht. unfold _trade_normalization, id_ok in *.
    destruct (Py.int (Native.trade_id t)); [eauto|done].
Qed.

(** X1. A 200 page is all or nothing. If every trade id of the raw page is
    an integer literal, the turn yields one page that holds, trade for
    trade and in the order of the raw page, the normalized trades. If some
    id is not, nothing is yielded for this answer: the run ends with
    [ValueError] and leaves the rest of the script unread. *)
Theorem page_all_or_nothing i retry rw r script c tr :
  status_code r = 200 →
  let turn := _get_trades_body rw r (c, tr ++ [Get (helper i c)]) in
  let new := drop (length tr) turn.2.2 in
  (Forall id_ok (json r) →
   ∃ page, pages new = [page]
           ∧ list.last new = Some (Yield page)
           ∧ Forall2 (λ t x, _trade_normalization t = inr x) (json r) page)
  ∧ (Exists (λ t, ¬ id_ok t) (json r) →
     _get_trades_loop i retry rw (r :: script) (c, tr)
     = (Raised ValueError, turn.2)
     ∧ pages new = []).
Proof.
  intros Hst turn new. subst new turn. rewrite loop_step, body_success by done.
  destruct (advance_total (json r) c
              ((tr ++ [Get (helper i c)]) ++ [Sleep RATE_LIMIT_SLEEP]))
    as (c' & ws & Hadv & _ & Hws).
  rewrite Hadv. cbn [fst snd]. apply pages_warnings in Hws. split.
  - intros Hok. destruct (traverse_normalization_ok _ Hok) as (page & Hpage).
    rewrite Hpage. cbn [fst snd]. exists page.
    rewrite <- !app_assoc, drop_app_length.
    change (pages ([Get (helper i c)] ++ [Sleep RATE_LIMIT_SLEEP]
                     ++ ws ++ [Yield page]))
      with (pages (ws ++ [Yield page])).
    rewrite pages_app, Hws. split; [done|]. split.
    + by rewrite !app_assoc, last_snoc.
    + by apply traverse_Forall2.
  - intros Hbad. rewrite (traverse_normalization_bad _ Hbad).
    cbn [fst snd]. split; [done|].
    rewrite <- !app_assoc, drop_app_length. exact Hws.
Qed.

(** X2. A page always moves the cursor. After a 200 that lists at least
    one trade the cursor is the timestamp of the last raw trade, or that
    timestamp plus one when the cursor stood on it already; either way an
    integer different from the cursor before, in every window, with the
    end as it was. So when the loop goes on after a page its next request
    is never for the start it has just asked for. *)
Theorem cursor_moves rw r c tr t :
  status_code r = 200 →
  list.last (json r) = Some t →
  let c' := (_get_trades_body rw r (c, tr)).2.1 in
  start c' = Some (if bool_decide (start c = Some (Native.timestamp t))
                   then Native.timestamp t + 1 else Native.timestamp t)
  ∧ start c' ≠ start c
  ∧ end_ c' = end_ c.
Proof.
  intros Hst Hlast c'. subst c'. rewrite body_success by done.
  assert (∃ c1 tr1,
            advance (json r) (c, tr ++ [Sleep RATE_LIMIT_SLEEP])
            = (inr (), (c1, tr1))
            ∧ start c1
              = Some (if bool_decide (start c = Some (Native.timestamp t))
                      then Native.timestamp t + 1 else Native.timestamp t)
            ∧ start c1 ≠ start c ∧ end_ c1 = end_ c)
    as (c1 & tr1 & Hadv & Hmoved).
  { case_bool_decide as Hs.
    - rewrite (advance_saturated _ t) by done. eexists _, _.
      split; [done|]. cbn. rewrite Hs. split; [done|]. split; [|done].
      intros [= Heq]. lia.
    - rewrite (advance_moved _ t) by done. eexists _, _.
      split; [done|]. cbn. split; [done|]. split; [congruence|done]. }
  rewrite Hadv. cbn [fst snd].
  by destruct (traverse _trade_normalization (json r)).
Qed.

(** X3. An empty page ends the run in every window: the turn sleeps the
    courtesy delay, logs that there is no data for the range, yields the
    empty page and the generator is exhausted, with the cursor as it was
    and the rest of the script unread. *)
Theorem empty_page_ends_run i retry rw r script c tr :
  status_code r = 200 →
  json r = [] →
  _get_trades_loop i retry rw (r :: script) (c, tr)
  = (Returned (),
     (c, tr ++ [Get (helper i c); Sleep RATE_LIMIT_SLEEP;
                Warning (NoData DERIBIT (start c) (end_ c)); Yield []])).
Proof.
  intros Hst Hempty. rewrite loop_step, body_success by done.
  rewrite Hempty, advance_empty. cbn. by rewrite <- !app_assoc.
Qed.

(** X4. A 429 that does not say how long to wait is not retried. Without a
    Retry-After header the lookup raises [KeyError] on the lowered name,
    with a header that [int] refuses [int] raises [ValueError]; in both
    loops the exception escapes right after the request, before any sleep,
    whatever the retry policy. *)
Theorem rate_limit_without_wait i sym retry rw
    (r : response (list Native.t)) (r' : response book_result)
    script script' c l tr :
  status_code r = 429 → retry_after r ≫= Py.int = None →
  status_code r' = 429 → retry_after r' ≫= Py.int = None →
  _get_trades_loop i retry rw (r :: script) (c, tr)
  = (Raised (match retry_after r with
             | Some _ => ValueError
             | None => KeyError "retry-after"
             end),
     (c, tr ++ [Get (helper i c)]))
  ∧ _book_loop sym retry rw (r' :: script') (l, tr)
    = (Raised (match retry_after r' with
               | Some _ => ValueError
               | None => KeyError "retry-after"
               end),
       (l, tr ++ [Get (book_url sym)])).
Proof.
  intros Hst Hh Hst' Hh'. split.
  - rewrite loop_step. unfold _get_trades_body.
    rewrite bool_decide_eq_true_2 by done.
    unfold bind, retry_after_seconds, raise.
    destruct (retry_after r) as [h|]; [|done].
    cbn in Hh. by rewrite Hh.
  - rewrite book_loop_step. unfold _book_body.
    rewrite bool_decide_eq_true_2 by done.
    unfold bind, retry_after_seconds, raise.
    destruct (retry_after r') as [h|]; [|done].
    cbn in Hh'. by rewrite Hh'.
Qed.

(** *** Whole runs *)

Lemma requests_app tr1 tr2 : requests (tr1 ++ tr2) = requests tr1 ++ requests tr2.
Proof. apply omap_app. Qed.

Lemma requests_warnings ws :
  Forall (λ ev, ∃ w, ev = Warning w) ws → requests ws = [].
Proof. induction 1 as [|ev ws [w ->] _ IH]; [done|]. exact IH. Qed.

(** What one turn adds to the trace: the page of its answer if it has one,
    and no request. *)
Lemma body_pages rw r c tr :
  ∃ c' new,
    (_get_trades_body rw r (c, tr)).2 = (c', tr ++ new)
    ∧ pages new = option_list (page_of r)
    ∧ requests new = []
    ∧ end_ c' = end_ c
    ∧ ((_get_trades_body rw r (c, tr)).1 = inr Break → is_Some (page_of r)).
Proof.
  unfold page_of.
  destruct (decide (status_code r = 429)) as [H429|H429].
  { rewrite bool_decide_eq_false_2 by lia.
    unfold _get_trades_body. rewrite bool_decide_eq_true_2 by done.
    unfold bind, retry_after_seconds, sleep, emit, raise, ret.
    destruct (retry_after r) as [h|];
      [|by exists c, []; rewrite app_nil_r].
    destruct (Py.int h) as [n|]; [|by exists c, []; rewrite app_nil_r].
    destruct (Qle_bool 0 (inject_Z n));
      [|by exists c, []; rewrite app_nil_r].
    exists c, [Sleep (inject_Z n)]. cbn. done. }
  destruct (decide (status_code r = 500)) as [H500|H500].
  { rewrite bool_decide_eq_false_2 by lia.
    rewrite body_server_error by done.
    destruct (Qle_bool 0 rw); eexists c, _; cbn; done. }
  destruct (decide (status_code r = 200)) as [H200|H200].
  - rewrite bool_decide_eq_true_2 by done.
    rewrite body_success by done.
    destruct (advance_total (json r) c (tr ++ [Sleep RATE_LIMIT_SLEEP]))
      as (c' & ws & Hadv & Hend & Hws).
    rewrite Hadv. cbn [snd fst].
    pose proof (pages_warnings ws Hws) as Hp.
    pose proof (requests_warnings ws Hws) as Hr.
    destruct (traverse _trade_normalization (json r)) as [e|page].
    + exists c', (Sleep RATE_LIMIT_SLEEP :: ws). cbn [snd fst].
      rewrite <- app_assoc. done.
    + exists c', (Sleep RATE_LIMIT_SLEEP :: ws ++ [Yield page]).
      cbn [snd fst]. rewrite <- !app_assoc. split; [done|].
      change (pages (Sleep RATE_LIMIT_SLEEP :: ws ++ [Yield page]))
        with (pages (ws ++ [Yield page])).
      change (requests (Sleep RATE_LIMIT_SLEEP :: ws ++ [Yield page]))
        with (requests (ws ++ [Yield page])).
      rewrite pages_app, requests_app, Hp, Hr. cbn. eauto.
  - rewrite bool_decide_eq_false_2 by done.
    rewrite body_fatal by done. eexists c, _. cbn. done.
Qed.

(** X5. What a run yields is what it was answered. On every script the run
    reads a prefix of it, one request for each answer read, and the pages it
    yields are, in order and with nothing added, dropped or repeated, the
    normalized pages of the 200 answers among them. If the run returns, the
    last answer read gave a page; if it is pending, the script is used up. *)
Theorem pages_are_the_answers i retry rw script :
  ∀ c tr,
    let run := _get_trades_loop i retry rw script (c, tr) in
    ∃ k new,
      (k ≤ length script)%nat
      ∧ run.2.2 = tr ++ new
      ∧ pages new = omap page_of (take k script)
      ∧ length (requests new) = k
      ∧ match run.1 with
        | Returned _ => ∃ r, list.last (take k script) = Some r
                             ∧ is_Some (page_of r)
        | Raised _ => (0 < k)%nat
        | Pending _ => k = length script
        end.
Proof.
  induction script as [|r script IH]; intros c tr run; subst run.
  { exists 0%nat, []. cbn. by rewrite app_nil_r. }
  rewrite loop_step.
  destruct (body_pages rw r c (tr ++ [Get (helper i c)]))
    as (c' & new & Hst & Hp & Hr & _ & Hbreak).
  assert (omap page_of [r] = option_list (page_of r)) as Hone
    by (cbn; by destruct (page_of r)).
  destruct (_get_trades_body rw r (c, tr ++ [Get (helper i c)]))
    as [[e|[]] st']; cbn [fst snd] in *; subst st'.
  - exists 1%nat, (Get (helper i c) :: new). cbn [fst snd take length].
    rewrite take_0, Hone, <- app_assoc.
    change (pages (Get (helper i c) :: new)) with (pages new).
    change (requests (Get (helper i c) :: new))
      with (helper i c :: requests new).
    rewrite Hr. repeat split; try done; lia.
  - destruct (IH c' ((tr ++ [Get (helper i c)]) ++ new))
      as (k & new' & Hk & Htr & Hp' & Hr' & Hout).
    exists (S k), (Get (helper i c) :: new ++ new').
    cbn [length take]. split; [lia|].
    split; [by rewrite Htr, <- !app_assoc|].
    change (pages (Get (helper i c) :: new ++ new'))
      with (pages (new ++ new')).
    change (requests (Get (helper i c) :: new ++ new'))
      with (helper i c :: requests (new ++ new')).
    rewrite pages_app, requests_app, Hp, Hp', Hr.
    split; [by cbn; destruct (page_of r)|]. split; [by cbn; rewrite Hr'|].
    destruct (_get_trades_loop i retry rw script
                (c', (tr ++ [Get (helper i c)]) ++ new)) as [[?|?|?] ?];
      cbn [fst] in *; [|lia|lia].
    destruct Hout as (r0 & Hlast & Hok). exists r0. split; [|done].
    destruct (take k script) as [|r1 rest]; [done|].
    by rewrite last_cons, Hlast.
  - exists 1%nat, (Get (helper i c) :: new). cbn [fst snd take length].
    rewrite take_0, Hone, <- app_assoc.
    change (pages (Get (helper i c) :: new)) with (pages new).
    change (requests (Get (helper i c) :: new))
      with (helper i c :: requests new).
    rewrite Hr. repeat split; try done; [lia|].
    exists r. split; [done|]. by apply Hbreak.
Qed.

(** X6. The end bound is fixed for the whole run. On every script the run
    leaves [end] as it found it, and each of its requests is the request of
    [helper] for some cursor with that same end: only the start moves. *)
Theorem end_bound_fixed i retry rw script :
  ∀ c tr,
    let run := _get_trades_loop i retry rw script (c, tr) in
    end_ run.2.1 = end_ c
    ∧ ∃ new, run.2.2 = tr ++ new
             ∧ Forall (λ u, ∃ c', end_ c' = end_ c ∧ u = helper i c')
                 (requests new).
Proof.
  induction script as [|r script IH]; intros c tr run; subst run.
  { split; [done|]. exists []. cbn. by rewrite app_nil_r. }
  rewrite loop_step.
  destruct (body_pages rw r c (tr ++ [Get (helper i c)]))
    as (c' & new & Hst & _ & Hr & Hend & _).
  assert (Forall (λ u, ∃ c', end_ c' = end_ c ∧ u = helper i c')
            (requests (Get (helper i c) :: new))) as Hone.
  { change (requests (Get (helper i c) :: new))
      with (helper i c :: requests new).
    rewrite Hr. repeat constructor. by exists c. }
  destruct (_get_trades_body rw r (c, tr ++ [Get (helper i c)]))
    as [[e|[]] st']; cbn [fst snd] in *; subst st'.
  - split; [done|]. exists (Get (helper i c) :: new).
    by rewrite <- app_assoc.
  - destruct (IH c' ((tr ++ [Get (helper i c)]) ++ new))
      as (Hend' & new' & Htr & Hreq).
    split; [congruence|].
    exists (Get (helper i c) :: new ++ new').
    split; [by rewrite Htr, <- !app_assoc|].
    rewrite app_comm_cons, requests_app. apply Forall_app. split; [done|].
    eapply Forall_impl; [exact Hreq|]. cbn.
    intros u (c'' & Hc'' & ->). exists c''. split; [congruence|done].
  - split; [done|]. exists (Get (helper i c) :: new).
    by rewrite <- app_assoc.
Qed.

(** X7. Full pages, then a short one. With a usable end bound, a run that
    is answered by any number of full pages whose last trades were made
    after the epoch, and then by a page shorter than REQUEST_LIMIT, makes
    one request for each of them, yields their normalized pages in that
    order, and returns without reading further. *)
Theorem full_pages_then_short i retry rw rs ps r p script :
  Forall2 full_page_of rs ps →
  status_code r = 200 →
  traverse _trade_normalization (json r) = inr p →
  Z.of_nat (length (json r)) < REQUEST_LIMIT →
  ∀ c tr,
    ¬ falsy (end_ c) →
    ∃ c' new,
      _get_trades_loop i retry rw (rs ++ r :: script) (c, tr)
      = (Returned (), (c', tr ++ new))
      ∧ pages new = ps ++ [p]
      ∧ length (requests new) = S (length rs).
Proof.
  intros Hfull Hst Hp Hshort.
  induction Hfull as [|r0 p0 rs ps (Hst0 & Hp0 & Hlen0 & t & Hlast & Hts) _ IH];
    intros c tr Hend.
  - cbn [app].
    destruct (page_decision i retry rw r script c tr p Hst Hp)
      as (_ & Hstop & _).
    destruct (page_yielded rw r c (tr ++ [Get (helper i c)]) p Hst Hp)
      as (c' & ws & Hturn & _ & Hws).
    rewrite Hstop by (by left). rewrite Hturn. cbn [snd].
    exists c', (Get (helper i c) :: Sleep RATE_LIMIT_SLEEP :: ws ++ [Yield p]).
    split; [by rewrite <- app_assoc|].
    change (pages (Get (helper i c) :: Sleep RATE_LIMIT_SLEEP
                     :: ws ++ [Yield p]))
      with (pages (ws ++ [Yield p])).
    change (requests (Get (helper i c) :: Sleep RATE_LIMIT_SLEEP
                        :: ws ++ [Yield p]))
      with (helper i c :: requests (ws ++ [Yield p])).
    rewrite pages_app, requests_app, (pages_warnings ws Hws),
      (requests_warnings ws Hws). done.
  - cbn [app].
    destruct (page_decision i retry rw r0 (rs ++ r :: script) c tr p0
                Hst0 Hp0) as (_ & _ & Hgo).
    destruct (page_yielded rw r0 c (tr ++ [Get (helper i c)]) p0 Hst0 Hp0)
      as (c0 & ws & Hturn & Hadv & Hws).
    rewrite Hturn in Hgo. cbn [fst snd] in Hgo.
    destruct (advance_nonempty (json r0) t c
                ((tr ++ [Get (helper i c)]) ++ [Sleep RATE_LIMIT_SLEEP]) Hlast)
      as (s' & Hs' & Hcase).
    rewrite Hadv in Hs'. cbn [fst snd] in Hs'.
    assert (end_ c0 = end_ c) as Hend0.
    { destruct (advance_total (json r0) c
                  ((tr ++ [Get (helper i c)]) ++ [Sleep RATE_LIMIT_SLEEP]))
        as (c1 & ws1 & Hadv1 & Hend1 & _).
      rewrite Hadv in Hadv1. by injection Hadv1 as -> _. }
    rewrite Hgo.
    2:{ rewrite Hs'. unfold falsy in *.
        intros [?|[[?|[= ?]]|?]]; [lia|done| |tauto].
        destruct Hcase as [?|[? _]]; lia. }
    destruct (IH c0 ((tr ++ [Get (helper i c)])
                       ++ Sleep RATE_LIMIT_SLEEP :: ws ++ [Yield p0]))
      as (c' & new & Hrun & Hpages & Hreqs); [by rewrite Hend0|].
    exists c', (Get (helper i c) :: Sleep RATE_LIMIT_SLEEP
                  :: ws ++ [Yield p0] ++ new).
    split.
    { rewrite Hrun. do 2 f_equal. rewrite <- !app_assoc. cbn.
      by rewrite <- !app_assoc. }
    change (pages (Get (helper i c) :: Sleep RATE_LIMIT_SLEEP
                     :: ws ++ [Yield p0] ++ new))
      with (pages (ws ++ [Yield p0] ++ new)).
    change (requests (Get (helper i c) :: Sleep RATE_LIMIT_SLEEP
                        :: ws ++ [Yield p0] ++ new))
      with (helper i c :: requests (ws ++ [Yield p0] ++ new)).
    rewrite !pages_app, !requests_app, (pages_warnings ws Hws),
      (requests_warnings ws Hws), Hpages.
    cbn. by rewrite Hreqs.
Qed.

(** X8. Without a start date the end date is ignored. [trades] then runs
    exactly as with no dates at all, whatever end date is passed: its
    requests are for the most recent trades of the exchange symbol, without
    time parameters, and it yields exactly one page if it returns and none
    otherwise. *)
Theorem end_date_alone_is_ignored utcnow symbol end_date retry rw script :
  let run := trades utcnow symbol None end_date retry rw script in
  run = trades utcnow symbol None None retry rw script
  ∧ Forall (λ u, u = api +:+ "get_last_trades_by_instrument?instrument_name="
                       +:+ std_symbol_to_exchange_symbol symbol
                       +:+ "&include_old=true&count=1000")
      (requests run.2.2)
  ∧ match run.1 with
    | Returned _ => length (pages run.2.2) = 1%nat
    | _ => pages run.2.2 = []
    end.
Proof.
  intros run. subst run. unfold trades, _get_trades. cbn [window].
  split; [done|].
  set (i := std_symbol_to_exchange_symbol symbol).
  set (c := {| start := None; end_ := None |}). split.
  - assert (∀ script c0 tr,
              end_ c0 = None →
              ∃ new, (_get_trades_loop i retry rw script (c0, tr)).2.2
                     = tr ++ new
                     ∧ Forall (λ u, u = helper i c) (requests new))
      as Hall.
    { clear script. intros script.
      induction script as [|r script IH]; intros c0 tr Hc0.
      { exists []. cbn. by rewrite app_nil_r. }
      rewrite loop_step.
      destruct (body_pages rw r c0 (tr ++ [Get (helper i c0)]))
        as (c' & new & Hst & _ & Hr & Hend & _).
      assert (helper i c0 = helper i c) as Hu.
      { rewrite !helper_unbounded; [done|by left; left|by right; left]. }
      destruct (_get_trades_body rw r (c0, tr ++ [Get (helper i c0)]))
        as [[e|[]] st']; cbn [fst snd] in *; subst st'.
      - exists (Get (helper i c0) :: new). rewrite <- app_assoc.
        split; [done|].
        change (requests (Get (helper i c0) :: new))
          with (helper i c0 :: requests new).
        rewrite Hr. by repeat constructor.
      - destruct (IH c' ((tr ++ [Get (helper i c0)]) ++ new))
          as (new' & Htr & Hreq); [congruence|].
        exists (Get (helper i c0) :: new ++ new').
        split; [by rewrite Htr, <- !app_assoc|].
        change (requests (Get (helper i c0) :: new ++ new'))
          with (helper i c0 :: requests (new ++ new')).
        rewrite requests_app, Hr. by constructor.
      - exists (Get (helper i c0) :: new). rewrite <- app_assoc.
        split; [done|].
        change (requests (Get (helper i c0) :: new))
          with (helper i c0 :: requests new).
        rewrite Hr. by repeat constructor. }
    destruct (Hall script c [] eq_refl) as (new & -> & Hreq).
    cbn [app]. eapply Forall_impl; [exact Hreq|].
    intros u Hu. cbv beta in Hu. subst u.
    apply helper_unbounded. by left; left.
  - destruct (unbounded_one_page i retry rw script c []) as (new & Hnew & Hp);
      [by left|].
    rewrite Hnew. exact Hp.
Qed.

(** X13. A saturated full page is escaped by one millisecond. In a window
    with a usable end, after a full page whose last trade carries the very
    timestamp the cursor stands on, the run logs the one saturation warning,
    yields the page and goes on with the time-bounded request for the
    cursor plus one, that is, for a start it has not asked for before. *)
Theorem saturation_escapes i retry rw r script (s e : Z) tr page t :
  status_code r = 200 →
  traverse _trade_normalization (json r) = inr page →
  REQUEST_LIMIT ≤ Z.of_nat (length (json r)) →
  list.last (json r) = Some t →
  Native.timestamp t = s →
  s ≠ -1 → e ≠ 0 →
  let c := {| start := Some s; end_ := Some e |} in
  let c' := {| start := Some (s + 1); end_ := Some e |} in
  _get_trades_loop i retry rw (r :: script) (c, tr)
  = _get_trades_loop i retry rw script
      (c', tr ++ [Get (helper i c); Sleep RATE_LIMIT_SLEEP;
                  Warning (Saturated DERIBIT (Some s)); Yield page])
  ∧ helper i c'
    = api +:+ "get_last_trades_by_instrument_and_time?&start_timestamp="
          +:+ pretty (s + 1) +:+ "&end_timestamp=" +:+ pretty e
          +:+ "&instrument_name=" +:+ i +:+ "&include_old=true&count=1000".
Proof.
  intros Hst Hpage Hfull Hlast Hts Hs He c c'.
  split; [|apply helper_bounded; lia].
  rewrite loop_step, body_success, Hpage by done.
  rewrite (advance_saturated _ t) by (done || by subst s).
  cbn [fst snd start end_ c]. subst s.
  replace (Z.of_nat (length (json r)) <? REQUEST_LIMIT) with false
    by (symmetry; apply Z.ltb_ge; lia).
  cbn [Py.truthy orb negb].
  destruct (Z.eqb_spec (Native.timestamp t + 1) 0) as [|_]; [lia|].
  destruct (Z.eqb_spec e 0) as [|_]; [lia|].
  cbn [negb orb]. by rewrite <- !app_assoc.
Qed.

End Pages.

Section BookRuns.
Context {py : Py.Unicode} `{Pandas}.
Implicit Types (l : book_locals) (tr : list event).
Implicit Types (r : response book_result).

Lemma setitem_length k v (d : SortedDict.t) :
  (length (SortedDict.setitem k v d) ≤ S (length d))%nat.
Proof.
  induction d as [|[k' v'] d IH]; cbn; [lia|].
  destruct (k ?= k')%Qc; cbn; lia.
Qed.

Lemma writes_length entries (d : SortedDict.t) :
  (length (writes entries d) ≤ length entries + length d)%nat.
Proof.
  revert d. induction entries as [|[k v] entries IH]; intros d; cbn; [lia|].
  fold (writes entries (SortedDict.setitem k v d)).
  pose proof (IH (SortedDict.setitem k v d)).
  pose proof (setitem_length k v d). lia.
Qed.




(** X10. A side never holds more levels than its list has entries, so a
    response that lists nothing on a side leaves that side of the snapshot
    empty. *)
Theorem levels_bounded sym retry rw r script :
  status_code r = 200 →
  ∃ b,
    (_book sym retry rw (r :: script)).1
    = Returned {[ std_symbol_to_exchange_symbol sym := b ]}
    ∧ (length (BID b) ≤ length (bids (json r)))%nat
    ∧ (length (ASK b) ≤ length (asks (json r)))%nat
    ∧ (bids (json r) = [] → BID b = [])
    ∧ (asks (json r) = [] → ASK b = []).
Proof.
  intros Hst.
  rewrite (book_success sym retry rw [] r script) by done.
  eexists. split; [reflexivity|]. cbn [BID ASK].
  pose proof (writes_length (bids (json r)) SortedDict.empty) as Hb.
  pose proof (writes_length (asks (json r)) SortedDict.empty) as Ha.
  cbn in Hb, Ha. repeat split; try lia; by intros ->.
Qed.

(** X11. In the book loop [retry] is a switch, not a count. Unless it is 0,
    any number of 500s in a row, more than [retry] too, is answered each by
    the warning, a sleep of [retry_wait] (a length from 0 to [SLEEP_MAX])
    and the same request again, with nothing else changed. *)
Theorem book_server_errors_retried sym retry rw rs script l tr :
  retry ≠ Some 0 →
  (0 <= rw)%Q →
  (rw <= SLEEP_MAX)%Q →
  Forall (λ r, status_code r = 500) rs →
  _book_loop sym retry rw (rs ++ script) (l, tr)
  = _book_loop sym retry rw script (l, tr ++ retries (book_url sym) rw rs).
Proof.
  intros Hretry Hrw _ Hrs. revert tr.
  induction Hrs as [|r rs Hr _ IH]; intros tr.
  { cbn [app retries mbind list_bind]. by rewrite app_nil_r. }
  cbn [app]. rewrite book_loop_step, book_body_server_error by done.
  apply Qle_bool_iff in Hrw. rewrite Hrw.
  rewrite bool_decide_eq_false_2 by done.
  rewrite IH. unfold retries. cbn [mbind list_bind].
  by rewrite <- !app_assoc.
Qed.

Lemma book_body_fatal retry rw r l tr :
  status_code r ≠ 429 → status_code r ≠ 500 → status_code r ≠ 200 →
  _book_body retry rw r (l, tr)
  = (inl (HTTPError (status_code r)),
     (l, tr ++ [HandleError (status_code r)])).
Proof.
  intros H1 H2 H3. unfold _book_body.
  rewrite !bool_decide_eq_false_2 by done.
  rewrite bool_decide_eq_true_2 by done.
  reflexivity.
Qed.

(** How the book loop can leave the [while]: by giving up on a 500 with
    [data] untouched, or with the body of a 200 in [data]. *)
Lemma book_loop_returned sym retry rw script :
  ∀ l tr l' tr',
    _book_loop sym retry rw script (l, tr) = (Returned (), (l', tr')) →
    ret_ l' = ret_ l
    ∧ (data l' = data l
       ∨ ∃ rs r rest,
           script = rs ++ r :: rest
           ∧ Forall (λ r, status_code r = 429 ∨ status_code r = 500) rs
           ∧ status_code r = 200
           ∧ data l' = Some (json r)).
Proof.
  induction script as [|r script IH]; intros l tr l' tr'; [done|].
  rewrite book_loop_step.
  assert (∀ tr0,
            _book_loop sym retry rw script (l, tr0) = (Returned (), (l', tr')) →
            status_code r = 429 ∨ status_code r = 500 →
            ret_ l' = ret_ l
            ∧ (data l' = data l
               ∨ ∃ rs r0 rest,
                   r :: script = rs ++ r0 :: rest
                   ∧ Forall (λ r, status_code r = 429 ∨ status_code r = 500) rs
                   ∧ status_code r0 = 200
                   ∧ data l' = Some (json r0))) as Hnext.
  { intros tr0 Hrun Hr. destruct (IH _ _ _ _ Hrun) as [Hret [Hd|Hd]];
      [by auto|].
    destruct Hd as (rs & r0 & rest & -> & Hrs & Hr0 & Hdata).
    split; [done|]. right. exists (r :: rs), r0, rest.
    repeat split; try done. by constructor. }
  destruct (decide (status_code r = 429)) as [H429|H429].
  { unfold _book_body. rewrite bool_decide_eq_true_2 by done.
    unfold bind, retry_after_seconds, sleep, emit, raise, ret.
    destruct (retry_after r) as [h|]; [|done].
    destruct (Py.int h) as [n|]; [|done].
    destruct (Qle_bool 0 (inject_Z n)); [|done].
    cbn [fst snd]. intros Hrun. eapply Hnext; eauto. }
  destruct (decide (status_code r = 500)) as [H500|H500].
  { rewrite book_body_server_error by done.
    destruct (Qle_bool 0 rw); [|done].
    case_bool_decide.
    - intros [= <- _]. auto.
    - intros Hrun. eapply Hnext; eauto. }
  destruct (decide (status_code r = 200)) as [H200|H200].
  - rewrite book_body_success by done. intros [= <- _]. cbn.
    split; [done|]. right. exists [], r, script. by repeat split.
  - by rewrite book_body_fatal.
Qed.

(** X12. The call returns a snapshot only for a 200. On every script and
    for every retry policy, if [_book] returns, then the script holds a
    200 answer that was preceded by 429s and 500s only, and the snapshot is
    the fill of that answer's body: the empty maps the call starts from are
    never returned as they are on giving up. *)
Theorem book_returns_only_a_200 sym retry rw script m tr :
  _book sym retry rw script = (Returned m, tr) →
  ∃ rs r rest,
    script = rs ++ r :: rest
    ∧ Forall (λ r, status_code r = 429 ∨ status_code r = 500) rs
    ∧ status_code r = 200
    ∧ m = {[ std_symbol_to_exchange_symbol sym :=
               {| BID := writes (bids (json r)) SortedDict.empty;
                  ASK := writes (asks (json r)) SortedDict.empty |} ]}.
Proof.
  unfold _book.
  destruct (_book_loop _ _ _ _ _) as [[[]|e|u] [l' tr']] eqn:Hloop; [|done..].
  apply book_loop_returned in Hloop as [Hret [Hdata|Hdata]];
    cbn [ret_ data] in Hret, Hdata.
  { by rewrite fill_unbound. }
  destruct Hdata as (rs & r & rest & -> & Hrs & Hr & Hdata).
  destruct l' as [ret' data']. cbn [ret_ data] in Hret, Hdata.
  subst ret' data'.
  rewrite fill_bound. intros [= <- _]. eauto 10.
Qed.

End BookRuns.

(** * Closed examples

    The theorems above applied to the sample exchange, and runs of the code
    on which a sentence of the specification fails as it is written. *)

Module Examples.
Import Sample.

(** C1 at a saturated page: the cursor moves from 5 to 6. *)
Lemma cursor_after_page_witness :
  status_code saturated = 200
  ∧ start (_get_trades_body 10 saturated (bounded, [])).2.1 = Some 6
  ∧ Warning (Saturated "DERIBIT" (Some 5))
    ∈ drop 0 (_get_trades_body 10 saturated (bounded, [])).2.2.
Proof.
  split; [reflexivity|].
  destruct (cursor_after_page 10 saturated 5 100 [] eq_refl)
    as (_ & _ & Hsat).
  exact (Hsat (trade 5 "2" "sell") eq_refl eq_refl).
Defined.

(** C2 at a short page: the run returns after it. *)
Lemma pagination_stops_iff_witness :
  status_code two_trades = 200
  ∧ traverse _trade_normalization (json two_trades) = inr two_canonical
  ∧ _get_trades_loop instrument None 10 [two_trades; two_trades]
      (bounded, [])
    = (Returned (),
       (_get_trades_body 10 two_trades
          (bounded, [Get (helper instrument bounded)])).2).
Proof.
  split; [reflexivity|]. split; [reflexivity|].
  destruct (pagination_stops_iff instrument None 10 two_trades [two_trades]
              bounded [] two_canonical eq_refl eq_refl)
    as (_ & _ & Hstop & _).
  apply Hstop. left. vm_compute. reflexivity.
Defined.

(** C2 as written fails. In the first run the end bound is present (it is
    0), the start bound and the cursor are present and the raw page is full;
    in the second both bounds are present and non-zero, the page is full and
    its last trade carries the timestamp 0, which becomes the cursor. Both
    runs return after their first page and leave the second answer of the
    script unread. *)
Lemma pagination_stops_on_zero_end :
  let stops_after_one (c : cursor) (r : response (list Native.t)) :=
    let run := _get_trades_loop instrument None 10 [r; r] (c, []) in
    run.1 = Returned ()
    ∧ length (pages run.2.2) = 1%nat
    ∧ ¬ (Z.of_nat (length (json r)) < REQUEST_LIMIT
         ∨ start c = None ∨ start run.2.1 = None ∨ end_ c = None) in
  stops_after_one {| start := Some (-1000); end_ := Some 0 |}
    (answer 200 None (full_page 1600000000000))
  ∧ stops_after_one {| start := Some (-5); end_ := Some 100 |}
      (answer 200 None (full_page 0)).
Proof.
  vm_compute. split; (split; [reflexivity|]; split; [reflexivity|]);
    intros [?|[?|[?|?]]]; discriminate.
Qed.

(** C4 on a 500 that is followed by a page. *)
Lemma server_error_retried_witness :
  status_code (answer 500 None ([] : list Native.t)) = 500
  ∧ (0 <= 10)%Q
  ∧ (10 <= SLEEP_MAX)%Q
  ∧ _get_trades_loop instrument (Some 0) 10
      [answer 500 None []; two_trades] (bounded, [])
    = _get_trades_loop instrument (Some 0) 10 [two_trades]
        (bounded, [Get (helper instrument bounded);
                   Warning (ServerError "DERIBIT"
                              "https://www.deribit.com/" "");
                   Sleep 10]).
Proof.
  split; [reflexivity|]. split; [discriminate|]. split; [discriminate|].
  exact (server_error_retried instrument (Some 0) 10
           (answer 500 None []) [two_trades] bounded []
           eq_refl ltac:(discriminate) ltac:(discriminate)).
Defined.

(** C4 as written fails: with [retry == 0] the trade loop does not stop
    at the 500; it requests the same URL again and yields the page that
    answer carries. *)
Lemma server_error_not_abandoned :
  _get_trades_loop instrument (Some 0) 10
    [answer 500 None []; two_trades] (bounded, [])
  = (Returned (),
     ({| start := Some 7; end_ := Some 100 |},
      [Get (helper instrument bounded);
       Warning (ServerError "DERIBIT" "https://www.deribit.com/" "");
       Sleep 10;
       Get (helper instrument bounded);
       Sleep RATE_LIMIT_SLEEP;
       Yield two_canonical])).
Proof. reflexivity. Qed.

Lemma slow_down_rate_limited {B} (body : B) :
  rate_limited (slow_down "3" body).
Proof. split; [reflexivity|]. exists 3. split; [reflexivity|lia]. Defined.

Lemma slow_down_asks_to_wait {B} (body : B) :
  asks_to_wait (slow_down "3" body).
Proof.
  split; [reflexivity|]. exists 3.
  split; [reflexivity|]. split; [lia|discriminate].
Defined.

(** C5 on two 429s in the trade loop and one in the book loop, with no
    retries allowed: the same requests again, after 3 seconds each. *)
Lemma rate_limit_retried_witness :
  Forall asks_to_wait [slow_down "3" ([] : list Native.t); slow_down "3" []]
  ∧ Forall asks_to_wait [slow_down "3" no_book]
  ∧ _get_trades_loop instrument (Some 0) 10
      [slow_down "3" []; slow_down "3" []; two_trades] (bounded, [])
    = _get_trades_loop instrument (Some 0) 10 [two_trades]
        (bounded, [Get (helper instrument bounded); Sleep 3;
                   Get (helper instrument bounded); Sleep 3])
  ∧ _book_loop instrument (Some 0) 0 [slow_down "3" no_book; book_answer]
      ({| ret_ := ∅; data := None |}, [])
    = _book_loop instrument (Some 0) 0 [book_answer]
        ({| ret_ := ∅; data := None |},
         [Get (book_url instrument); Sleep 3]).
Proof.
  assert (Forall asks_to_wait
            [slow_down "3" ([] : list Native.t); slow_down "3" []]) as Hrs
    by (repeat constructor; apply slow_down_asks_to_wait).
  assert (Forall asks_to_wait [slow_down "3" no_book]) as Hrs'
    by (repeat constructor; apply slow_down_asks_to_wait).
  split; [exact Hrs|]. split; [exact Hrs'|].
  destruct (rate_limit_retried instrument instrument (Some 0) 10
              [slow_down "3" []; slow_down "3" []] [slow_down "3" no_book]
              [two_trades] [book_answer] bounded
              {| ret_ := ∅; data := None |} [] Hrs Hrs')
    as (Htrades & Hbook & _).
  split; [exact Htrades|].
  destruct (rate_limit_retried instrument instrument (Some 0) 0
              [slow_down "3" []; slow_down "3" []] [slow_down "3" no_book]
              [two_trades] [book_answer] bounded
              {| ret_ := ∅; data := None |} [] Hrs Hrs')
    as (_ & Hbook0 & _).
  exact Hbook0.
Defined.

(** C5 as written fails: a 429 is surfaced to the caller when it does not
    say how long to wait. Without the header the trade run ends on the
    [KeyError] of the lookup and leaves the page that follows unread; with
    a date in the header the book call ends on the [ValueError] of [int];
    with a negative number of seconds it ends on that of [sleep]. *)
Lemma rate_limit_surfaces :
  (_get_trades_loop instrument None 10
     [answer 429 None []; two_trades] (bounded, [])).1
  = Raised (KeyError "retry-after")
  ∧ (_book instrument None 0
       [slow_down "Wed, 21 Oct 2015 07:28:00 GMT" no_book; book_answer]).1
    = Raised ValueError
  ∧ (_book instrument None 0 [slow_down "-1" no_book; book_answer]).1
    = Raised ValueError.
Proof. repeat split; reflexivity. Qed.

(** C6 on a sell. *)
Lemma trade_normalization_spec_witness :
  Py.int (Native.trade_id (trade 7 " 48_079 " "sell")) = Some 48079
  ∧ ∃ c, _trade_normalization (trade 7 " 48_079 " "sell") = inr c
         ∧ Trade.side c = SELL ∧ Trade.id c = 48079.
Proof.
  split; [reflexivity|].
  destruct (trade_normalization_spec (trade 7 " 48_079 " "sell") 48079
              eq_refl)
    as (c & Hc & _ & Hsell & Hid & _).
  exists c. split; [exact Hc|]. split; [|exact Hid].
  apply Hsell. discriminate.
Defined.

(** C7 on a response, reached after one 429, that lists the bid price 3
    twice. *)
Lemma book_snapshot_witness :
  Forall rate_limited [slow_down "3" no_book]
  ∧ status_code book_answer = 200
  ∧ ∃ b, _book instrument None 0 [slow_down "3" no_book; book_answer]
         = (Returned {[ instrument := b ]},
            [Get (book_url instrument); Sleep 3; Get (book_url instrument)])
         ∧ ascending (BID b)
         ∧ SortedDict.get (Q2Qc (3 # 1)) (BID b) = Some (Q2Qc (9 # 1))
         ∧ SortedDict.get (Q2Qc (5 # 1)) (BID b) = None
         ∧ SortedDict.get (Q2Qc (5 # 1)) (ASK b) = Some (Q2Qc 1).
Proof.
  assert (Forall rate_limited [slow_down "3" no_book]) as Hrs
    by (repeat constructor; apply slow_down_rate_limited).
  split; [exact Hrs|]. split; [reflexivity|].
  destruct (book_snapshot instrument None 0 [slow_down "3" no_book]
              book_answer [] Hrs eq_refl)
    as (b & Hb & (Hasc & _ & _ & _ & Hbid) & (_ & _ & _ & _ & Hask)).
  exists b. split; [exact Hb|]. split; [exact Hasc|].
  rewrite !Hbid, Hask. repeat split; reflexivity.
Defined.

(** C8 on a page and on a book. *)
Lemma courtesy_sleep_witness :
  status_code two_trades = 200
  ∧ status_code book_answer = 200
  ∧ (∃ rest,
        (_get_trades_body 10 two_trades (bounded, [])).2.2
        = [] ++ Sleep RATE_LIMIT_SLEEP :: rest
        ∧ ∀ d, Sleep d ∉ rest)
  ∧ (∀ d, Sleep d ∉ (_book instrument None 0 [book_answer]).2).
Proof.
  split; [reflexivity|]. split; [reflexivity|].
  exact (courtesy_sleep 10 two_trades bounded [] instrument None 0
           book_answer [] eq_refl eq_refl).
Defined.

(** C8 as written fails for the order book: the 200 is read and the
    snapshot returned with the request as the only effect. *)
Lemma book_does_not_sleep :
  _book instrument None 0 [book_answer]
  = (Returned
       {[ instrument :=
            {| BID := [(Q2Qc (2 # 1), Q2Qc 1); (Q2Qc (3 # 1), Q2Qc (9 # 1))];
               ASK := [(Q2Qc (5 # 1), Q2Qc 1)] |} ]},
     [Get (book_url instrument)]).
Proof. by rewrite (book_success instrument None 0 [] book_answer []). Qed.

(** C10 on a short first page. *)
Lemma zero_start_window_witness :
  status_code two_trades = 200
  ∧ traverse _trade_normalization (json two_trades) = inr two_canonical
  ∧ helper instrument from_epoch
    = helper instrument {| start := None; end_ := None |}
  ∧ _get_trades_loop instrument None 10 [two_trades; two_trades]
      (from_epoch, [])
    = (Returned (),
       (_get_trades_body 10 two_trades
          (from_epoch, [Get (helper instrument from_epoch)])).2).
Proof.
  split; [reflexivity|]. split; [reflexivity|].
  destruct (zero_start_window instrument None 10 two_trades [two_trades]
              (Some 100) [] two_canonical eq_refl eq_refl)
    as (Hsame & _ & Hshort & _).
  split; [exact Hsame|].
  apply Hshort. left. vm_compute. reflexivity.
Defined.

(** C10 as written fails: from a start of 0 and a full first page the
    run does not end after one page. Its second request carries the time
    bounds, and it yields a second page. *)
Lemma zero_start_full_page_continues :
  let c := {| start := Some 0; end_ := Some 1600000000500 |} in
  let c' := {| start := Some 1600000000000; end_ := Some 1600000000500 |} in
  let r := answer 200 None (full_page 1600000000000) in
  let r' := answer 200 None [trade 1600000000400 "8" "sell"] in
  let run := _get_trades_loop instrument None 10 [r; r'] (c, []) in
  run.1 = Returned ()
  ∧ length (pages run.2.2) = 2%nat
  ∧ Get (helper instrument c') ∈ run.2.2
  ∧ helper instrument c'
    ≠ helper instrument {| start := None; end_ := None |}.
Proof.
  vm_compute. split; [reflexivity|]. split; [reflexivity|].
  split; [|discriminate].
  do 3 apply list_elem_of_further. apply list_elem_of_here.
Qed.

(** X1 on a page with an id that is no integer: the run is lost. *)
Lemma page_all_or_nothing_witness :
  status_code eth_trades = 200
  ∧ Exists (λ t, ¬ id_ok t) (json eth_trades)
  ∧ (_get_trades_loop instrument None 10 [eth_trades; two_trades]
       (bounded, [])).1
    = Raised ValueError
  ∧ ∃ page, pages (drop 0 (_get_trades_body 10 two_trades
                             (bounded, [] ++ [Get (helper instrument bounded)])).2.2)
            = [page].
Proof.
  assert (Exists (λ t, ¬ id_ok t) (json eth_trades)) as Hbad.
  { apply Exists_cons_tl, Exists_cons_hd. intros [n Hn]. discriminate Hn. }
  split; [reflexivity|]. split; [exact Hbad|]. split.
  - destruct (page_all_or_nothing instrument None 10 eth_trades [two_trades]
                bounded [] eq_refl) as (_ & Hraise).
    destruct (Hraise Hbad) as (-> & _). reflexivity.
  - destruct (page_all_or_nothing instrument None 10 two_trades []
                bounded [] eq_refl) as (Hok & _).
    destruct Hok as (page & Hpage & _).
    { repeat constructor; eexists; reflexivity. }
    exists page. exact Hpage.
Defined.

(** X2 on a saturated page: from 5 to 6. *)
Lemma cursor_moves_witness :
  status_code saturated = 200
  ∧ list.last (json saturated) = Some (trade 5 "2" "sell")
  ∧ start (_get_trades_body 10 saturated (bounded, [])).2.1 = Some 6
  ∧ start (_get_trades_body 10 saturated (bounded, [])).2.1 ≠ start bounded.
Proof.
  split; [reflexivity|]. split; [reflexivity|].
  destruct (cursor_moves 10 saturated bounded [] (trade 5 "2" "sell")
              eq_refl eq_refl) as (Hvalue & Hmoved & _).
  split; [exact Hvalue|exact Hmoved].
Defined.

(** X3 in a bounded window. *)
Lemma empty_page_ends_run_witness :
  status_code empty_page = 200
  ∧ json empty_page = []
  ∧ _get_trades_loop instrument None 10 [empty_page; two_trades] (bounded, [])
    = (Returned (),
       (bounded, [Get (helper instrument bounded); Sleep RATE_LIMIT_SLEEP;
                  Warning (NoData "DERIBIT" (Some 5) (Some 100)); Yield []])).
Proof.
  split; [reflexivity|]. split; [reflexivity|].
  exact (empty_page_ends_run instrument None 10 empty_page [two_trades]
           bounded [] eq_refl eq_refl).
Defined.

(** X4 on a 429 without the header (trades) and with a date in it (book). *)
Lemma rate_limit_without_wait_witness :
  status_code (answer 429 None ([] : list Native.t)) = 429
  ∧ retry_after (answer 429 None ([] : list Native.t)) ≫= Py.int = None
  ∧ status_code (slow_down "Wed, 21 Oct 2015 07:28:00 GMT" no_book) = 429
  ∧ retry_after (slow_down "Wed, 21 Oct 2015 07:28:00 GMT" no_book) ≫= Py.int
    = None
  ∧ (_get_trades_loop instrument None 10 [answer 429 None []; two_trades]
       (bounded, [])).1
    = Raised (KeyError "retry-after")
  ∧ (_book_loop instrument None 0
       [slow_down "Wed, 21 Oct 2015 07:28:00 GMT" no_book; book_answer]
       ({| ret_ := ∅; data := None |}, [])).1
    = Raised ValueError.
Proof.
  do 4 (split; [reflexivity|]).
  destruct (rate_limit_without_wait instrument instrument None 10
              (answer 429 None [])
              (slow_down "Wed, 21 Oct 2015 07:28:00 GMT" no_book)
              [two_trades] [book_answer] bounded
              {| ret_ := ∅; data := None |} []
              eq_refl eq_refl eq_refl eq_refl) as [Htrades _].
  destruct (rate_limit_without_wait instrument instrument None 0
              (answer 429 None [])
              (slow_down "Wed, 21 Oct 2015 07:28:00 GMT" no_book)
              [two_trades] [book_answer] bounded
              {| ret_ := ∅; data := None |} []
              eq_refl eq_refl eq_refl eq_refl) as [_ Hbook].
  rewrite Htrades, Hbook. split; reflexivity.
Defined.

(** X7 on one full page followed by a page of two trades. *)
Lemma full_pages_then_short_witness :
  Forall2 full_page_of [answer 200 None (full_page 1600000000000)]
    [full_canonical 1600000000000]
  ∧ status_code two_trades = 200
  ∧ traverse _trade_normalization (json two_trades) = inr two_canonical
  ∧ Z.of_nat (length (json two_trades)) < REQUEST_LIMIT
  ∧ ¬ falsy (end_ bounded)
  ∧ ∃ c' new,
      _get_trades_loop instrument None 10
        [answer 200 None (full_page 1600000000000); two_trades; two_trades]
        (bounded, [])
      = (Returned (), (c', [] ++ new))
      ∧ pages new = [full_canonical 1600000000000] ++ [two_canonical]
      ∧ length (requests new) = 2%nat.
Proof.
  assert (Forall2 full_page_of [answer 200 None (full_page 1600000000000)]
            [full_canonical 1600000000000]) as Hfull.
  { constructor; [|constructor].
    split; [reflexivity|]. split; [vm_compute; reflexivity|].
    split; [vm_compute; discriminate|].
    exists (trade 1600000000000 "7" "buy").
    split; [vm_compute; reflexivity|reflexivity]. }
  assert (¬ falsy (end_ bounded)) as Hend
    by (intros [?|?]; discriminate).
  split; [exact Hfull|]. split; [reflexivity|]. split; [reflexivity|].
  split; [reflexivity|]. split; [exact Hend|].
  exact (full_pages_then_short instrument None 10 _ _ two_trades
           two_canonical [two_trades] Hfull eq_refl eq_refl eq_refl
           bounded [] Hend).
Defined.


(** X10 on a response that lists a bid price twice. *)
Lemma levels_bounded_witness :
  status_code book_answer = 200
  ∧ ∃ b, (_book instrument None 0 [book_answer]).1
         = Returned {[ instrument := b ]}
         ∧ (length (BID b) ≤ 3)%nat ∧ (length (ASK b) ≤ 1)%nat.
Proof.
  split; [reflexivity|].
  destruct (levels_bounded instrument None 0 book_answer [] eq_refl)
    as (b & Hbook & Hb & Ha & _).
  exists b. split; [exact Hbook|]. split; [exact Hb|exact Ha].
Defined.

(** X11 on three 500s in a row with [retry = 1]. *)
Lemma book_server_errors_retried_witness :
  Some 1 ≠ Some 0
  ∧ (0 <= 0)%Q
  ∧ (0 <= SLEEP_MAX)%Q
  ∧ Forall (λ r : response book_result, status_code r = 500)
      [server_error no_book; server_error no_book; server_error no_book]
  ∧ (_book instrument (Some 1) 0
       [server_error no_book; server_error no_book; server_error no_book;
        book_answer]).1
    = (_book instrument (Some 1) 0 [book_answer]).1.
Proof.
  assert (Forall (λ r : response book_result, status_code r = 500)
            [server_error no_book; server_error no_book; server_error no_book])
    as Hrs by (repeat constructor).
  split; [discriminate|]. split; [discriminate|]. split; [discriminate|].
  split; [exact Hrs|].
  unfold _book.
  rewrite (book_server_errors_retried instrument (Some 1) 0 _ [book_answer]
             _ [] ltac:(discriminate) ltac:(discriminate)
             ltac:(discriminate) Hrs).
  reflexivity.
Defined.

(** X12 on a run that returns after a 500 and a 429. *)
Lemma book_returns_only_a_200_witness :
  ∃ m tr,
    _book instrument None 0
      [server_error no_book; slow_down "3" no_book; book_answer]
    = (Returned m, tr)
    ∧ ∃ rs r rest,
        [server_error no_book; slow_down "3" no_book; book_answer]
        = rs ++ r :: rest
        ∧ Forall (λ r, status_code r = 429 ∨ status_code r = 500) rs
        ∧ status_code r = 200.
Proof.
  eexists _, _. split; [vm_compute; reflexivity|].
  destruct (book_returns_only_a_200 instrument None 0
              [server_error no_book; slow_down "3" no_book; book_answer]
              _ _ eq_refl)
    as (rs & r & rest & Hscript & Hrs & Hr & _).
  exists rs, r, rest. split; [exact Hscript|]. split; [exact Hrs|exact Hr].
Defined.

(** X13 on a full page at the start of the window. *)
Lemma saturation_escapes_witness :
  status_code (answer 200 None (full_page 5)) = 200
  ∧ traverse _trade_normalization (json (answer 200 None (full_page 5)))
    = inr (full_canonical 5)
  ∧ REQUEST_LIMIT ≤ Z.of_nat (length (json (answer 200 None (full_page 5))))
  ∧ list.last (json (answer 200 None (full_page 5))) = Some (trade 5 "7" "buy")
  ∧ Native.timestamp (trade 5 "7" "buy") = 5
  ∧ 5 ≠ -1 ∧ 100 ≠ 0
  ∧ _get_trades_loop instrument None 10
      [answer 200 None (full_page 5); two_trades] (bounded, [])
    = _get_trades_loop instrument None 10 [two_trades]
        ({| start := Some 6; end_ := Some 100 |},
         [] ++ [Get (helper instrument bounded); Sleep RATE_LIMIT_SLEEP;
                Warning (Saturated "DERIBIT" (Some 5));
                Yield (full_canonical 5)]).
Proof.
  assert (traverse _trade_normalization (json (answer 200 None (full_page 5)))
          = inr (full_canonical 5)) as Hpage by (vm_compute; reflexivity).
  assert (REQUEST_LIMIT
          ≤ Z.of_nat (length (json (answer 200 None (full_page 5))))) as Hfull
    by (vm_compute; discriminate).
  assert (list.last (json (answer 200 None (full_page 5)))
          = Some (trade 5 "7" "buy")) as Hlast by (vm_compute; reflexivity).
  split; [reflexivity|]. split; [exact Hpage|]. split; [exact Hfull|].
  split; [exact Hlast|]. split; [reflexivity|].
  split; [discriminate|]. split; [discriminate|].
  exact (proj1 (saturation_escapes instrument None 10
                  (answer 200 None (full_page 5)) [two_trades] 5 100 []
                  (full_canonical 5) (trade 5 "7" "buy")
                  eq_refl Hpage Hfull Hlast eq_refl
                  ltac:(discriminate) ltac:(discriminate))).
Defined.

(** C9. The one nanosecond taken off the end is lost in the conversion.
    For the window from 2020-01-01 to 2020-01-02 (midnights, UTC) the end
    bound is 1577923200000, the very millisecond of the end instant, the
    same as without the subtraction: the window that is requested is
    closed at its end and takes in a trade made at the end instant. The
    same holds of an end that is resolved to the current time. *)
Theorem window_end_not_reduced :
  let new_year := 1577836800000000000 in
  let next_day := 1577923200000000000 in
  window next_day (Some new_year) (Some next_day)
  = {| start := Some 1577836800000; end_ := Some 1577923200000 |}
  ∧ window next_day (Some new_year) None
    = {| start := Some 1577836800000; end_ := Some 1577923200000 |}
  ∧ epoch_ms (sub_nanosecond (_timestamp next_day))
    = epoch_ms (_timestamp next_day)
  ∧ 1577923200000 * 1000000 = next_day.
Proof. vm_compute. repeat split; reflexivity. Qed.

End Examples.
